(** * backend-tienda: inventory routes and the legacy catalog stock update

    A shallow embedding of [models/Stock.js], [routes/stockRoutes.js] and of
    the handler [POST /api/products/:id/update-stock] of [server.js],
    followed by the other handlers of [server.js] that decide something: the
    stock listing, the [authenticate] middleware, registration, login,
    password reset, the profile and the product upsert.

    Conventions of the embedding:
    - the quantities of the [stocks] collection, which the store compares
      and increments, are integers: a [Z]; the numbers that the catalog
      handlers of [server.js] compute with are those of JavaScript, IEEE 754
      doubles: primitive floats;
    - the [stocks] collection is the list of its documents, in the order in
      which the store scans them;
    - a handler is a function from the request and the collection to the
      outcome seen by the caller, the collection left behind and the trace of
      the operations it issued against the store;
    - requests are served one at a time and the store answers every
      operation: neither concurrent sessions nor connection failures are
      modelled. *)

From Stdlib Require Import ZArith Ascii String List Lia PrimFloat.
From stdpp Require Import base option list strings pretty gmap.

Local Open Scope string_scope.
Local Open Scope list_scope.
Local Open Scope Z_scope.

(** ** JavaScript errors *)

Module Js.

(** Why the engine raised a [TypeError] in the handlers below. *)
Inductive type_error_cause :=
  | Destructure (prop : string)        (* const { prop } = undefined *)
  | NotIterable (name : string)        (* for (const x of name), name not iterable *)
  | ReadOfNull (prop : string)         (* null.prop *)
  | NotAFunction (name : string).      (* v.name() where v.name is not callable *)

Inductive error :=
  | ReferenceError (ident : string)    (* ident is not defined *)
  | TypeError (cause : type_error_cause)
  | Error (message : string).          (* new Error(message) *)

End Js.

(** ** models/Stock.js *)

Module Stock.

(** A document of the schema: [productId], [size], [color], [quantity]. *)
Record doc := Doc {
  productId : string;
  size : string;
  color : string;
  quantity : Z
}.

Abbreviation collection := (list doc).

(** The composite key of the index [{ productId: 1, size: 1, color: 1 }]. *)
Definition key : Type := string * string * string.

Definition key_of (d : doc) : key := (productId d, size d, color d).

(** [{ unique: true }]: no two documents share a composite key. *)
Definition unique_index (c : collection) : Prop := NoDup (key_of <$> c).

(** The query documents the routes build: equality on the three key fields
    and, for the reservation, [quantity: { $gte: n }]. *)
Record filter := Filter {
  f_productId : string;
  f_size : string;
  f_color : string;
  f_quantity_gte : option Z
}.

Definition matches (f : filter) (d : doc) : bool :=
  String.eqb (productId d) (f_productId f)
  && String.eqb (size d) (f_size f)
  && String.eqb (color d) (f_color f)
  && match f_quantity_gte f with
     | Some n => n <=? quantity d
     | None => true
     end.

(** The update document [{ $inc: { quantity: delta } }]. *)
Definition inc (delta : Z) (d : doc) : doc :=
  Doc (productId d) (size d) (color d) (quantity d + delta).

(** [Stock.findOne(filter)]: the first matching document, or null. *)
Definition findOne (f : filter) (c : collection) : option doc :=
  snd <$> list_find (λ d, matches f d) c.

(** [Stock.findOneAndUpdate(filter, { $inc: { quantity: delta } },
    { new: true })]: the first matching document is updated in place and the
    updated document is returned; without a match nothing changes and the
    result is null. *)
Definition findOneAndUpdate (f : filter) (delta : Z) (c : collection)
  : option doc * collection :=
  match list_find (λ d, matches f d) c with
  | Some (i, d) => (Some (inc delta d), <[i := inc delta d]> c)
  | None => (None, c)
  end.

(** [min: 0] of the schema, as a property of a collection. *)
Definition nonneg (c : collection) : Prop := Forall (λ d, 0 <= quantity d) c.

End Stock.

(** ** routes/stockRoutes.js *)

Module StockRoutes.

(** An element of [items] as the handlers read it. *)
Record item := Item {
  id : string;
  size : string;
  color : string;
  quantity : Z
}.

(** An element of the [items] array: an object carrying the four fields, or
    [null], on which the first property read throws. *)
Inductive entry :=
  | ENull
  | Line (it : item).

Inductive items_field :=
  | ItemsUndefined                      (* the field is missing *)
  | ItemsArray (es : list entry).

Inductive req_body :=
  | BodyUndefined                       (* req.body is undefined *)
  | BodyObject (items : items_field).

(** Operations issued against the store, in the order they are issued. *)
Inductive db_event :=
  | EvFindOne (k : Stock.key)
  | EvFindOneAndUpdate (k : Stock.key) (gte : Z) (delta : Z)
  | EvStartSession
  | EvStartTransaction
  | EvCommit
  | EvAbort
  | EvEndSession.

Definition trace := list db_event.

(** Entries of the two reply arrays. *)
Record result := Result {
  r_id : string;
  r_size : string;
  r_color : string;
  available : Z;
  requested : Z
}.

Record update := Update {
  u_id : string;
  u_size : string;
  u_color : string;
  newStock : Z
}.

(** The JSON bodies the handlers send. [Failure e] is
    [{ success: false, error: e.message }]. *)
Inductive payload :=
  | CheckOk (results : list result)     (* { success: true, results } *)
  | UpdateOk (updates : list update)    (* { success: true, updates } *)
  | Failure (e : Js.error).

(** What a call of a handler produces: a reply with its status, or, when an
    exception leaves the async handler, a rejected promise and no reply from
    the handler. *)
Inductive outcome :=
  | Responded (status : Z) (p : payload)
  | Threw (e : Js.error).

Definition success (o : outcome) : bool :=
  match o with
  | Responded _ (CheckOk _) | Responded _ (UpdateOk _) => true
  | _ => false
  end.

(** *** The body of a [try] block: state and exceptions

    The state is the collection as the running code sees it together with the
    trace; an exception keeps the state reached so far. *)

Record db := Db { coll : Stock.collection; log : trace }.

Definition M (A : Type) : Type := db → (Js.error + A) * db.

Definition ret {A} (a : A) : M A := λ s, (inr a, s).

Definition throw {A} (e : Js.error) : M A := λ s, (inl e, s).

Definition bind {A B} (m : M A) (k : A → M B) : M B :=
  λ s, match m s with
       | (inl e, s') => (inl e, s')
       | (inr a, s') => k a s'
       end.

Notation "x <~ m ;; k" := (bind m (λ x, k))
  (at level 100, m at next level, right associativity).

(** [await Stock.findOne({ productId, size, color })] *)
Definition findOne (k : Stock.key) : M (option Stock.doc) :=
  λ s, let '(p, sz, c) := k in
       (inr (Stock.findOne (Stock.Filter p sz c None) (coll s)),
        Db (coll s) (log s ++ [EvFindOne k])).

(** [await Stock.findOneAndUpdate({ productId, size, color,
    quantity: { $gte: n } }, { $inc: { quantity: delta } },
    { new: true, session })] *)
Definition findOneAndUpdate (k : Stock.key) (n delta : Z) : M (option Stock.doc) :=
  λ s, let '(p, sz, c) := k in
       let '(r, c') := Stock.findOneAndUpdate (Stock.Filter p sz c (Some n)) delta (coll s) in
       (inr r, Db c' (log s ++ [EvFindOneAndUpdate k n delta])).

(** [const { items } = req.body] *)
Definition destructure_items (b : req_body) : M items_field :=
  match b with
  | BodyUndefined => throw (Js.TypeError (Js.Destructure "items"))
  | BodyObject f => ret f
  end.

(** The iterator of [for (const item of items)]. *)
Definition iterate (f : items_field) : M (list entry) :=
  match f with
  | ItemsUndefined => throw (Js.TypeError (Js.NotIterable "items"))
  | ItemsArray es => ret es
  end.

(** [item.id], the first property a loop body reads from its element. *)
Definition read_item (e : entry) : M item :=
  match e with
  | ENull => throw (Js.TypeError (Js.ReadOfNull "id"))
  | Line it => ret it
  end.

Definition key_of_item (it : item) : Stock.key := (id it, size it, color it).

(** *** POST /check-stock *)

Fixpoint check_loop (es : list entry) (results : list result) : M (list result) :=
  match es with
  | [] => ret results
  | e :: rest =>
      it <~ read_item e ;;
      product <~ findOne (key_of_item it) ;;
      check_loop rest
        (results ++ [Result (id it) (size it) (color it)
                       (match product with
                        | Some p => Stock.quantity p
                        | None => 0
                        end)
                       (quantity it)])
  end.

Definition check_stock_try (b : req_body) : M (list result) :=
  items <~ destructure_items b ;;
  es <~ iterate items ;;
  check_loop es [].

Definition check_stock (b : req_body) (c : Stock.collection)
  : outcome * Stock.collection * trace :=
  match check_stock_try b (Db c []) with
  | (inr results, s) => (Responded 200 (CheckOk results), coll s, log s)
  | (inl e, s) => (Responded 500 (Failure e), coll s, log s)
  end.

(** *** POST /update-stock *)

(** The identifiers the module binds: its three [const]s, the parameters of
    the handler and those of the CommonJS wrapper. *)
Definition module_scope : list string :=
  ["express"; "router"; "Stock"; "req"; "res";
   "exports"; "require"; "module"; "__filename"; "__dirname"].

Definition bound (scope : list string) (ident : string) : bool :=
  existsb (String.eqb ident) scope.

Definition insufficient (it : item) : Js.error :=
  Js.Error ("Stock insuficiente para " +:+ id it +:+ "-" +:+ size it +:+ "-" +:+ color it).

Fixpoint update_loop (es : list entry) (updates : list update) : M (list update) :=
  match es with
  | [] => ret updates
  | e :: rest =>
      it <~ read_item e ;;
      r <~ findOneAndUpdate (key_of_item it) (quantity it) (- quantity it) ;;
      match r with
      | None => throw (insufficient it)
      | Some d =>
          update_loop rest
            (updates ++ [Update (id it) (size it) (color it) (Stock.quantity d)])
      end
  end.

Definition update_stock_try (b : req_body) : M (list update) :=
  items <~ destructure_items b ;;
  es <~ iterate items ;;
  update_loop es [].

(** The handler, in a module whose scope is [scope]. [mongoose.startSession()]
    is evaluated first, outside the [try]: an unbound [mongoose] leaves the
    handler with a [ReferenceError]. Otherwise the loop runs on the session's
    view of the collection; [commitTransaction] installs that view,
    [abortTransaction] drops it. *)
Definition update_stock_in (scope : list string) (b : req_body) (c : Stock.collection)
  : outcome * Stock.collection * trace :=
  if bound scope "mongoose" then
    match update_stock_try b (Db c [EvStartSession; EvStartTransaction]) with
    | (inr updates, s) =>
        (Responded 200 (UpdateOk updates), coll s, log s ++ [EvCommit; EvEndSession])
    | (inl e, s) =>
        (Responded 400 (Failure e), c, log s ++ [EvAbort; EvEndSession])
    end
  else (Threw (Js.ReferenceError "mongoose"), c, []).

(** The handler of the repository. *)
Definition update_stock : req_body → Stock.collection → outcome * Stock.collection * trace :=
  update_stock_in module_scope.

(** *** Vocabulary of the properties *)

(** A request whose [items] is an array of well-formed lines. *)
Definition lines (its : list item) : req_body :=
  BodyObject (ItemsArray (Line <$> its)).

Definition key_filter (it : item) : Stock.filter :=
  Stock.Filter (id it) (size it) (color it) None.

(** The entry the stock query reports for a tuple. *)
Definition result_of (c : Stock.collection) (it : item) : result :=
  Result (id it) (size it) (color it)
    (match Stock.findOne (key_filter it) c with
     | Some p => Stock.quantity p
     | None => 0
     end)
    (quantity it).

(** What an entry of the stock query says of its tuple, against the records
    of [c]: it repeats the tuple's id, size, color and quantity; [available]
    is the quantity of a record of [c] that has the tuple's composite key, or
    0 when no record of [c] has that key; and where [c] respects the unique
    index, [available] is the quantity of every record that has the key, that
    is of the one there is. *)
Definition reports (c : Stock.collection) (it : item) (r : result) : Prop :=
  r_id r = id it ∧ r_size r = size it ∧ r_color r = color it
  ∧ requested r = quantity it
  ∧ ((∃ d, d ∈ c ∧ Stock.key_of d = key_of_item it ∧ available r = Stock.quantity d)
     ∨ ((∀ d, d ∈ c → Stock.key_of d ≠ key_of_item it) ∧ available r = 0))
  ∧ (Stock.unique_index c →
     ∀ d, d ∈ c → Stock.key_of d = key_of_item it → available r = Stock.quantity d).

(** The entry a reservation reports for a line applied to [c]. *)
Definition update_of (c : Stock.collection) (it : item) : update :=
  Update (id it) (size it) (color it)
    (match Stock.findOne (key_filter it) c with
     | Some d => Stock.quantity d - quantity it
     | None => 0
     end).

(** A record of the line's composite key holds the requested amount. *)
Definition satisfiable (c : Stock.collection) (it : item) : Prop :=
  ∃ d, Stock.findOne (key_filter it) c = Some d ∧ quantity it <= Stock.quantity d.

(** No record of the line's composite key holds the requested amount: there
    is no such record, or its quantity is less than the amount. *)
Definition unsatisfiable (c : Stock.collection) (it : item) : Prop :=
  ∀ d, d ∈ c → Stock.key_of d = key_of_item it → Stock.quantity d < quantity it.

(** The two ways a line is unsatisfiable: no record has its composite key, or
    a record has it and the amount exceeds what is held. *)
Definition not_found (c : Stock.collection) (it : item) : Prop :=
  ∀ d, d ∈ c → Stock.key_of d ≠ key_of_item it.

Definition insufficient_quantity (c : Stock.collection) (it : item) : Prop :=
  (∃ d, d ∈ c ∧ Stock.key_of d = key_of_item it) ∧ unsatisfiable c it.

(** The requests of the module and the collection a sequence of them leaves. *)
Inductive request :=
  | CheckStock (b : req_body)
  | UpdateStock (b : req_body).

Definition serve (scope : list string) (r : request) (c : Stock.collection)
  : outcome * Stock.collection * trace :=
  match r with
  | CheckStock b => check_stock b c
  | UpdateStock b => update_stock_in scope b c
  end.

Definition serve_all (scope : list string) (rs : list request) (c : Stock.collection)
  : Stock.collection :=
  fold_left (λ c r, (serve scope r c).1.2) rs c.

(** Malformed requests: no body, no [items], or a [null] among the items. *)
Definition malformed (b : req_body) : Prop :=
  match b with
  | BodyUndefined | BodyObject ItemsUndefined => True
  | BodyObject (ItemsArray es) => ENull ∈ es
  end.

(** The lines that precede the first [null] of an array. *)
Fixpoint lines_before_null (es : list entry) : list item :=
  match es with
  | Line it :: rest => it :: lines_before_null rest
  | _ => []
  end.

(** The exception a malformed request raises in the stock query. *)
Definition malformed_error (b : req_body) : Js.error :=
  match b with
  | BodyUndefined => Js.TypeError (Js.Destructure "items")
  | BodyObject ItemsUndefined => Js.TypeError (Js.NotIterable "items")
  | BodyObject (ItemsArray _) => Js.TypeError (Js.ReadOfNull "id")
  end.

(** The reads the stock query issues for a request. *)
Definition reads_of (b : req_body) : trace :=
  match b with
  | BodyObject (ItemsArray es) => EvFindOne ∘ key_of_item <$> lines_before_null es
  | _ => []
  end.

(** The quantity held in all, and the amount a request asks for in all. *)
Definition total (c : Stock.collection) : Z :=
  foldr (λ d acc, Stock.quantity d + acc) 0 c.

Definition amount_sum (its : list item) : Z :=
  foldr (λ it acc, quantity it + acc) 0 its.

(** What the lines of a request ask of the composite key [k], in all. *)
Definition demand (its : list item) (k : Stock.key) : Z :=
  foldr (λ it acc, if decide (key_of_item it = k) then quantity it + acc else acc) 0 its.

(** The collection with every record reduced by the demand on its key. *)
Definition draw (its : list item) (c : Stock.collection) : Stock.collection :=
  (λ d, Stock.inc (- demand its (Stock.key_of d)) d) <$> c.

(** Every line names a record that holds what the request asks of its key
    in all. *)
Definition covered (its : list item) (c : Stock.collection) : Prop :=
  ∀ it, it ∈ its →
    ∃ d, d ∈ c ∧ Stock.key_of d = key_of_item it
         ∧ demand its (key_of_item it) <= Stock.quantity d.

(** The part of a line that a reported update repeats, and the events of the
    guarded update. *)
Definition mirrors (u : update) (it : item) : Prop :=
  u_id u = id it ∧ u_size u = size it ∧ u_color u = color it.

Definition is_update (e : db_event) : Prop :=
  match e with
  | EvFindOneAndUpdate _ _ _ => True
  | _ => False
  end.

End StockRoutes.

(** ** server.js: POST /api/products/:id/update-stock *)

Module Legacy.

(** A JavaScript number: an IEEE 754 double, with the subtraction and the
    comparisons of the language. *)
Abbreviation num := PrimFloat.float.

(** Values of the [Mixed] path [stock]. An array carries its elements and the
    named properties assigned to it. *)
#[warnings="-register-all"]
Inductive value :=
  | VUndefined
  | VNull
  | VBool (b : bool)
  | VNum (n : num)
  | VStr (s : string)
  | VArr (elems : list value) (named : list (string * value))
  | VObj (fields : list (string * value)).

Inductive product_type := clothing | accessory | gloves | kneepads.

(** The two paths of a product document the handler touches. *)
Record product := Product {
  productType : product_type;
  stock : value
}.

(** [const { size, color, quantity } = req.body]: [size] and [color] are
    strings or missing; [quantity] is whatever the parsed body carries under
    that name, [undefined] when it carries nothing. *)
Record body := Body {
  size : option string;
  color : option string;
  quantity : value
}.

Inductive reply_body :=
  | Send (text : string)                (* res.send(text) *)
  | JsonSuccess.                        (* res.json({ success: true }) *)

(** The reply and, when [product.save()] was called, the document it was
    called on. *)
Record outcome := Outcome {
  status : Z;
  sent : reply_body;
  saved : option product
}.

(** [0], [-0] and [NaN] are the numbers that are not truthy. *)
Definition truthy (v : value) : bool :=
  match v with
  | VUndefined | VNull => false
  | VBool b => b
  | VNum n => negb (PrimFloat.is_zero n || PrimFloat.is_nan n)
  | VStr s => negb (String.eqb s "")
  | VArr _ _ | VObj _ => true
  end.

(** [typeof v === 'object'] *)
Definition is_object (v : value) : bool :=
  match v with
  | VNull | VArr _ _ | VObj _ => true
  | _ => false
  end.

(** Own property [k] of a property list, [undefined] when absent. *)
Fixpoint own (k : string) (fs : list (string * value)) : value :=
  match fs with
  | [] => VUndefined
  | (k', v) :: rest => if String.eqb k' k then v else own k rest
  end.

(** [fs[k] = v]: an existing property keeps its place, a new one goes last. *)
Fixpoint put (k : string) (v : value) (fs : list (string * value))
  : list (string * value) :=
  match fs with
  | [] => [(k, v)]
  | (k', v') :: rest =>
      if String.eqb k' k then (k, v) :: rest else (k', v') :: put k v rest
  end.

(** [v[k]] for the property names of this handler ([`${size}-${color}`], the
    upper-cased size, [default], [quantity], [size], [talla]): none of them is
    an array index, [length] or an inherited property, so only own named
    properties are found. Reading from [null] or [undefined] throws. *)
Definition get (v : value) (k : string) : Js.error + value :=
  match v with
  | VUndefined | VNull => inl (Js.TypeError (Js.ReadOfNull k))
  | VObj fs => inr (own k fs)
  | VArr _ named => inr (own k named)
  | VBool _ | VNum _ | VStr _ => inr VUndefined
  end.

(** [v[k] = x] in sloppy mode: stored on objects and arrays, ignored on
    primitives. *)
Definition set (v : value) (k : string) (x : value) : value :=
  match v with
  | VObj fs => VObj (put k x fs)
  | VArr l named => VArr l (put k x named)
  | _ => v
  end.

(** [{ ...v }] for an object or an array: the own enumerable properties,
    indices first for an array. *)
Definition spread (v : value) : list (string * value) :=
  match v with
  | VObj fs => fs
  | VArr l named => imap (λ i x, (pretty i, x)) l ++ named
  | _ => []
  end.

(** [a - q] and [a < 0] on numbers. *)
Definition num_sub (a q : num) : num := PrimFloat.sub a q.

Definition lt0 (a : num) : bool := PrimFloat.ltb a PrimFloat.zero.

Section Handler.

(** ECMAScript's [ToNumber] on strings and on objects, and
    [String.prototype.toUpperCase]. On an object [ToNumber] goes through
    [ToPrimitive], which throws a [TypeError] when neither [valueOf] nor
    [toString] yields a primitive. *)
Variable StringToNumber : string → num.
Variable ObjectToNumber : value → Js.error + num.
Variable toUpperCase : string → string.

Definition ToNumber (v : value) : Js.error + num :=
  match v with
  | VUndefined => inr PrimFloat.nan
  | VNull => inr PrimFloat.zero
  | VBool b => inr (if b then PrimFloat.one else PrimFloat.zero)
  | VNum n => inr n
  | VStr s => inr (StringToNumber s)
  | VArr _ _ | VObj _ => ObjectToNumber v
  end.

(** [l - r]: both operands are converted to numbers, the left one first. *)
Definition minus (l r : value) : Js.error + num :=
  match ToNumber l with
  | inl e => inl e
  | inr a =>
      match ToNumber r with
      | inl e => inl e
      | inr q => inr (num_sub a q)
      end
  end.

(** [v < 0] *)
Definition below_zero (v : value) : Js.error + bool :=
  match ToNumber v with
  | inl e => inl e
  | inr a => inr (lt0 a)
  end.

(** [v?.toUpperCase()] *)
Definition upper_opt (v : value) : Js.error + value :=
  match v with
  | VUndefined | VNull => inr VUndefined
  | VStr s => inr (VStr (toUpperCase s))
  | _ => inl (Js.TypeError (Js.NotAFunction "toUpperCase"))
  end.

Definition is_str (v : value) (s : string) : bool :=
  match v with
  | VStr s' => String.eqb s' s
  | _ => false
  end.

(** [size?.toUpperCase() || 'UNICA'] *)
Definition sizeKey_of (sz : option string) : string :=
  match sz with
  | None => "UNICA"
  | Some s => if String.eqb (toUpperCase s) "" then "UNICA" else toUpperCase s
  end.

(** The callback of [findIndex]:
    [(item.size?.toUpperCase() === sizeKey) || (item.talla?.toUpperCase() === sizeKey)] *)
Definition size_matches (sizeKey : string) (item : value) : Js.error + bool :=
  match get item "size" with
  | inl e => inl e
  | inr sv =>
      match upper_opt sv with
      | inl e => inl e
      | inr u =>
          if is_str u sizeKey then inr true
          else match get item "talla" with
               | inl e => inl e
               | inr tv =>
                   match upper_opt tv with
                   | inl e => inl e
                   | inr u' => inr (is_str u' sizeKey)
                   end
               end
      end
  end.

(** [stock.findIndex(callback)]: [None] is [-1]. *)
Fixpoint findIndex (sizeKey : string) (l : list value) (i : nat) : Js.error + option nat :=
  match l with
  | [] => inr None
  | item :: rest =>
      match size_matches sizeKey item with
      | inl e => inl e
      | inr true => inr (Some i)
      | inr false => findIndex sizeKey rest (S i)
      end
  end.

(** How the [switch] is left. At a [break], [stock'] is the value of the path
    [stock] of the document in memory, and [assigned] tells whether the
    handler assigned the path itself ([product.stock -= quantity]) rather than
    changed, in place, the value that the path holds
    ([product.stock[key].quantity -= quantity], [product.stock[sizeKey] = ...]). *)
Inductive switch_exit :=
  | Return (st : Z) (text : string)     (* return res.status(st).send(text) *)
  | Break (updated : bool) (stock' : value) (assigned : bool).

Definition no_stock : switch_exit := Return 400 "No hay suficiente stock".

(** [target.quantity -= quantity; if (target.quantity < 0) return ...;
    updated = true], where [rebuild] puts the mutated target back in place. *)
Definition decrement_entry (target : value) (q : value) (rebuild : value → value)
  : Js.error + switch_exit :=
  match get target "quantity" with
  | inl e => inl e
  | inr old =>
      match minus old q with
      | inl e => inl e
      | inr r =>
          let target' := set target "quantity" (VNum r) in
          match get target' "quantity" with
          | inl e => inl e
          | inr now =>
              match below_zero now with
              | inl e => inl e
              | inr true => inr no_stock
              | inr false => inr (Break true (rebuild target') false)
              end
          end
      end
  end.

(** [product.stock -= quantity; if (product.stock < 0) return ...;
    updated = true], for a stock that is the number [n]. *)
Definition decrement_number (n : num) (q : value) : Js.error + switch_exit :=
  match minus (VNum n) q with
  | inl e => inl e
  | inr r => if lt0 r then inr no_stock else inr (Break true (VNum r) true)
  end.

Definition case_clothing (st : value) (b : body) : Js.error + switch_exit :=
  match size b, color b with
  | Some s, Some c =>
      if String.eqb s "" || String.eqb c "" then
        inr (Return 400 "Se requieren talla y color")
      else
        let key := s +:+ "-" +:+ c in
        match get st key with
        | inl e => inl e
        | inr entry =>
            if truthy entry then decrement_entry entry (quantity b) (set st key)
            else inr (Break false st false)
        end
  | _, _ => inr (Return 400 "Se requieren talla y color")
  end.

Definition case_accessory (st : value) (b : body) : Js.error + switch_exit :=
  match st with
  | VNum n => decrement_number n (quantity b)
  | _ =>
      match get st "default" with
      | inl e => inl e
      | inr entry =>
          if truthy entry then decrement_entry entry (quantity b) (set st "default")
          else inr (Break false st false)
      end
  end.

Definition case_gloves (st : value) (b : body) : Js.error + switch_exit :=
  let sizeKey := sizeKey_of (size b) in
  match st with
  | VArr l named =>
      match findIndex sizeKey l 0 with
      | inl e => inl e
      | inr (Some i) =>
          match l !! i with
          | Some item =>
              decrement_entry item (quantity b) (λ item', VArr (<[i := item']> l) named)
          | None => inr (Break false st false)
          end
      | inr None => inr (Break false st false)
      end
  | VNull | VObj _ =>
      match get st sizeKey with
      | inl e => inl e
      | inr entry =>
          if truthy entry then
            match (if is_object entry then get entry "quantity" else inr entry) with
            | inl e => inl e
            | inr currentQuantity =>
                match minus currentQuantity (quantity b) with
                | inl e => inl e
                | inr newQuantity =>
                    if lt0 newQuantity then inr no_stock
                    else
                      inr (Break true
                             (set st sizeKey
                                (if is_object entry
                                 then VObj (put "quantity" (VNum newQuantity)
                                              (spread entry))
                                 else VNum newQuantity))
                             false)
                end
            end
          else inr (Break false st false)
      end
  | VNum n => decrement_number n (quantity b)
  | VUndefined | VBool _ | VStr _ => inr (Break false st false)
  end.

Definition run_switch (p : product) (b : body) : Js.error + switch_exit :=
  match productType p with
  | clothing => case_clothing (stock p) b
  | accessory => case_accessory (stock p) b
  | gloves | kneepads => case_gloves (stock p) b
  end.

(** The handler proper, once [authenticate] has passed the request on.
    [found] is the result of [Product.findOne({ id: req.params.id })]. *)
Definition update_stock (found : option product) (req_body : option body) : outcome :=
  match req_body with
  | None => Outcome 500 (Send "Error del servidor") None
  | Some b =>
      match found with
      | None => Outcome 404 (Send "Producto no encontrado") None
      | Some p =>
          match run_switch p b with
          | inl _ => Outcome 500 (Send "Error del servidor") None
          | inr (Return st text) => Outcome st (Send text) None
          | inr (Break true stock' _) =>
              Outcome 200 JsonSuccess (Some (Product (productType p) stock'))
          | inr (Break false _ _) =>
              Outcome 400 (Send "No se pudo actualizar el stock") None
          end
      end
  end.

(** What the collection holds under the product's id once the handler is
    done, [found] being what it held before. [product.save()] writes the
    paths that Mongoose has recorded as modified: an assignment to the path
    [stock] is recorded, a change made inside the value of a [Mixed] path is
    not, unless [markModified] is called, and the handler never calls it. So
    the stock in memory is written when the path was assigned, and nothing
    is written otherwise. *)
Definition store_after (found : option product) (req_body : option body)
  : option product :=
  match found, req_body with
  | Some p, Some b =>
      match run_switch p b with
      | inr (Break true stock' true) => Some (Product (productType p) stock')
      | _ => found
      end
  | _, _ => found
  end.

(** The collection's document after a sequence of requests for the same
    product. *)
Definition store_after_all (found : option product) (reqs : list (option body))
  : option product :=
  fold_left store_after reqs found.

(** *** Vocabulary of the properties *)

(** The ways a matched entry leaves the switch: an exception, the explicit
    out-of-stock reply, or [updated = true]. *)
Definition applied (r : Js.error + switch_exit) : Prop :=
  match r with
  | inl _ => True
  | inr (Return st text) => (st, text) = (400, "No hay suficiente stock")
  | inr (Break updated _ _) => updated = true
  end.

(** The own named properties of a value; none for [null] and [undefined]. *)
Definition props (v : value) : option (list (string * value)) :=
  match v with
  | VUndefined | VNull => None
  | VObj fs => Some fs
  | VArr _ named => Some named
  | VBool _ | VNum _ | VStr _ => Some []
  end.

(** A [size] or [talla] that is missing or a string. *)
Definition size_like (v : value) : bool :=
  match v with
  | VUndefined | VNull | VStr _ => true
  | _ => false
  end.

(** The string [v] names the size [sizeKey], case aside. *)
Definition names_size (sizeKey : string) (v : value) : bool :=
  match v with
  | VStr s => String.eqb (toUpperCase s) sizeKey
  | _ => false
  end.

(** An element of a size array that is not an entry for [sizeKey]: an
    object whose [size] and [talla] are missing or strings and name another
    size. *)
Definition other_size (sizeKey : string) (item : value) : bool :=
  match props item with
  | None => false
  | Some fs =>
      size_like (own "size" fs) && size_like (own "talla" fs)
      && negb (names_size sizeKey (own "size" fs))
      && negb (names_size sizeKey (own "talla" fs))
  end.

(** No shape branch applies: the encoding of the product's stock has no
    entry for what the request names.
    - clothing: size and color are given, and the stock has no (truthy)
      entry under [size-color];
    - accessory: the stock is not a number and has no (truthy) [default];
    - gloves, kneepads: the stock is an array without an entry for the size,
      an object without a (truthy) entry for the size, or neither an array,
      an object nor a number. *)
Definition no_entry (p : product) (b : body) : bool :=
  match productType p with
  | clothing =>
      match size b, color b, props (stock p) with
      | Some s, Some c, Some fs =>
          negb (String.eqb s "") && negb (String.eqb c "")
          && negb (truthy (own (s +:+ "-" +:+ c) fs))
      | _, _, _ => false
      end
  | accessory =>
      match stock p with
      | VNum _ => false
      | st =>
          match props st with
          | Some fs => negb (truthy (own "default" fs))
          | None => false
          end
      end
  | gloves | kneepads =>
      match stock p with
      | VArr l _ => forallb (other_size (sizeKey_of (size b))) l
      | VObj fs => negb (truthy (own (sizeKey_of (size b)) fs))
      | VUndefined | VBool _ | VStr _ => true
      | VNull | VNum _ => false
      end
  end.

(** *** GET /api/products/:id/stock *)

(** What the stock route hands to [res.json]: the stock as stored, or an
    object the handler builds, from a size to the quantity listed under it,
    that is the [q] of the entry [{ quantity: q }]. *)
Inductive listing :=
  | Stored (v : value)
  | BySize (m : gmap string value).

Inductive stock_reply :=
  | Listed (l : listing)                (* res.json(formattedStock) *)
  | Refused (st : Z) (text : string).   (* res.status(st).send(text) *)

(** [v || 0] *)
Definition or_zero (v : value) : value :=
  if truthy v then v else VNum PrimFloat.zero.

(** [typeof stock === 'number' ? stock : stock.default?.quantity || 0]; the
    result is [None] when an exception is thrown, which the handler only
    logs. *)
Definition list_accessory (st : value) : option value :=
  match st with
  | VNum _ => Some st
  | _ =>
      match get st "default" with
      | inl _ => None
      | inr d =>
          match get d "quantity" with
          | inl _ => Some (or_zero VUndefined)
          | inr q => Some (or_zero q)
          end
      end
  end.

(** The [forEach] over an array stock:
    [const size = item.size?.toUpperCase() || 'UNICA';
     formattedStock[size] = { quantity: item.quantity }] *)
Fixpoint list_sizes_array (l : list value) (m : gmap string value)
  : option (gmap string value) :=
  match l with
  | [] => Some m
  | item :: rest =>
      match get item "size" with
      | inl _ => None
      | inr sv =>
          match upper_opt sv with
          | inl _ => None
          | inr u =>
              match get item "quantity" with
              | inl _ => None
              | inr q =>
                  list_sizes_array rest
                    (<[match u with
                       | VStr s => if String.eqb s "" then "UNICA" else s
                       | _ => "UNICA"
                       end := q]> m)
              end
          end
      end
  end.

(** [typeof value === 'object' ? value.quantity : value] *)
Definition listed_quantity (v : value) : option value :=
  if is_object v then
    match get v "quantity" with
    | inl _ => None
    | inr q => Some q
    end
  else Some v.

(** The [forEach] over [Object.entries(stock)], the properties being given
    in the order of the entries:
    [formattedStock[size.toUpperCase()] = { quantity: ... }] *)
Fixpoint list_sizes_object (fs : list (string * value)) (m : gmap string value)
  : option (gmap string value) :=
  match fs with
  | [] => Some m
  | (sz, v) :: rest =>
      match listed_quantity v with
      | None => None
      | Some q => list_sizes_object rest (<[toUpperCase sz := q]> m)
      end
  end.

Definition format_stock (p : product) : option listing :=
  match productType p with
  | clothing => Some (Stored (stock p))
  | accessory =>
      match list_accessory (stock p) with
      | None => None
      | Some q => Some (BySize {["default" := q]})
      end
  | gloves | kneepads =>
      match stock p with
      | VArr l _ => BySize <$> list_sizes_array l ∅
      | VObj fs => BySize <$> list_sizes_object fs ∅
      | VNull => None                   (* Object.entries(null) throws *)
      | st => Some (BySize {["UNICA" := st]})
      end
  end.

(** The handler; [found] is the result of
    [Product.findOne({ id: req.params.id })]. *)
Definition get_stock (found : option product) : stock_reply :=
  match found with
  | None => Refused 404 "Producto no encontrado"
  | Some p =>
      match format_stock p with
      | Some l => Listed l
      | None => Refused 500 "Error del servidor"
      end
  end.

(** An accessory stock that holds the number [n]: the number itself, or an
    object whose [default] is an object with that [quantity]. *)
Definition accessory_holds (st : value) (n : num) : Prop :=
  st = VNum n
  ∨ ∃ fs efs, st = VObj fs ∧ own "default" fs = VObj efs
              ∧ own "quantity" efs = VNum n.



End Handler.

(** An entry that carries a quantity, and one that is not below zero: a
    number, or an object whose [quantity] is a number. [NaN] is not below
    zero. *)
Definition held (e : value) : Prop :=
  match e with
  | VNum n => lt0 n = false
  | VObj fs =>
      match own "quantity" fs with
      | VNum n => lt0 n = false
      | _ => False
      end
  | _ => False
  end.

(** A stock in one of the three encodings, a number, an object of entries or
    an array of entries, with no quantity below zero. *)
Definition sound_stock (st : value) : Prop :=
  match st with
  | VNum n => lt0 n = false
  | VObj fs => Forall (λ kv, held kv.2) fs
  | VArr l _ => Forall held l
  | _ => False
  end.

(** A stock that is a number: the one shape the handler assigns anew. *)
Definition is_number (st : value) : bool :=
  match st with
  | VNum _ => true
  | _ => false
  end.

(** [toUpperCase] on ASCII letters. *)
Definition upper_char (a : ascii) : ascii :=
  let n := nat_of_ascii a in
  if ((97 <=? n) && (n <=? 122))%nat then ascii_of_nat (n - 32) else a.

Fixpoint upper (s : string) : string :=
  match s with
  | EmptyString => EmptyString
  | String a rest => String (upper_char a) (upper rest)
  end.

End Legacy.

(** ** server.js: the [authenticate] middleware and the routes behind it

    Strings are sequences of bytes (UTF-8); a space is one byte. *)

Module Auth.

(** [s.split(' ')] *)
Fixpoint split_space (s : string) : list string :=
  match s with
  | EmptyString => [EmptyString]
  | String a rest =>
      if Ascii.eqb a " " then EmptyString :: split_space rest
      else match split_space rest with
           | w :: ws => String a w :: ws
           | [] => [String a EmptyString]
           end
  end.

(** [req.headers.authorization?.split(' ')[1]]; [None] is [undefined]. *)
Definition bearer (authorization : option string) : option string :=
  match authorization with
  | None => None
  | Some h => split_space h !! 1%nat
  end.

(** What the middleware does: a reply of its own, or [next()] with
    [req.userId] set to [decoded.userId]. *)
Inductive verdict :=
  | Reject (st : Z) (message : string)  (* res.status(st).json({ message }) *)
  | Next (userId : option string).

Fixpoint no_space (s : string) : bool :=
  match s with
  | EmptyString => true
  | String a rest => negb (Ascii.eqb a " ") && no_space rest
  end.

Section Middleware.

(** [jwt.verify(token, process.env.JWT_SECRET)] at the time of the request:
    [None] when it throws, otherwise the [userId] of the decoded payload,
    which may be missing. *)
Variable verify : string → option (option string).

Definition authenticate (authorization : option string) : verdict :=
  match bearer authorization with
  | None => Reject 401 "No autorizado"
  | Some token =>
      if String.eqb token "" then Reject 401 "No autorizado"
      else match verify token with
           | Some userId => Next userId
           | None => Reject 401 "Token inválido o expirado"
           end
  end.

(** [app.post(path, authenticate, handler)]: the handler runs when the
    middleware calls [next()]. *)
Definition guarded {A} (authorization : option string) (handler : option string → A)
  : verdict + A :=
  match authenticate authorization with
  | Next userId => inr (handler userId)
  | v => inl v
  end.

(** ECMAScript's [ToNumber] and [toUpperCase], as for the legacy handler. *)
Variable StringToNumber : string → Legacy.num.
Variable ObjectToNumber : Legacy.value → Js.error + Legacy.num.
Variable toUpperCase : string → string.

(** [app.post('/api/products/:id/update-stock', authenticate, ...)] *)
Definition update_stock_route (authorization : option string)
    (found : option Legacy.product) (req_body : option Legacy.body)
  : verdict + Legacy.outcome :=
  guarded authorization
    (λ _, Legacy.update_stock StringToNumber ObjectToNumber toUpperCase found req_body).

End Middleware.

End Auth.

(** ** server.js: POST /api/register and POST /api/login *)

Module Users.

(** A document of [UserSchema], with the [_id] the driver gave it. *)
Record user := User {
  _id : string;
  email : string;
  password : string;
  resetPasswordToken : option string;
  resetPasswordExpires : option Z
}.

Inductive reply :=
  | Message (st : Z) (message : string) (* res.status(st).json({ message }) *)
  | Session (token userId : string).    (* res.json({ token, userId }) *)

(** [User.findOne({ email })] *)
Definition findOne (e : string) (us : list user) : option user :=
  snd <$> list_find (λ u, email u = e) us.

Section Routes.

(** [bcrypt.hash(password, 12)] with the salt it draws,
    [bcrypt.compare(password, hash)], and [jwt.sign({ userId },
    process.env.JWT_SECRET, { expiresIn: '1h' })] at the time of the call,
    [None] when it throws. *)
Variable hash : string → string → string.
Variable compare : string → string → bool.
Variable sign : Z → string → option string.

(** [jwt.sign({ userId }, process.env.RESET_SECRET || 'reset_secreto',
    { expiresIn: '1h' })] *)
Variable sign_reset : Z → string → option string.

(** POST /api/register for the body [{ email, password }]; [salt] is the salt
    drawn by bcrypt and [oid] the identifier of the new document.
    [newUser.save()] throws on an empty [email] or [password]
    ([required: true]). *)
Definition register (salt oid : string) (e p : string) (us : list user)
  : reply * list user :=
  match findOne e us with
  | Some _ => (Message 400 "El usuario ya existe", us)
  | None =>
      if String.eqb e "" || String.eqb (hash salt p) ""
      then (Message 500 "Error al registrar usuario", us)
      else (Message 201 "Usuario creado exitosamente", us ++ [User oid e (hash salt p) None None])
  end.

(** POST /api/login for the body [{ email, password }] at the time [now]. *)
Definition login (now : Z) (e p : string) (us : list user) : reply :=
  match findOne e us with
  | None => Message 400 "Usuario no encontrado"
  | Some u =>
      if compare p (password u) then
        match sign now (_id u) with
        | Some token => Session token (_id u)
        | None => Message 500 "Error al iniciar sesión"
        end
      else Message 400 "Credenciales inválidas"
  end.

(** POST /api/forgot-password for the body [{ email }]: the token is signed
    at the time [signed], and [now] is the [Date.now()] of the expiry, in
    milliseconds. The token and its expiry are saved on the user, then the
    mail is sent; [mailed] tells whether [transporter.sendMail] resolves (the
    mail itself is not modelled). *)
Definition forgot_password (signed now : Z) (mailed : bool) (e : string) (us : list user)
  : reply * list user :=
  match list_find (λ u, email u = e) us with
  | None => (Message 400 "Usuario no encontrado", us)
  | Some (i, u) =>
      match sign_reset signed (_id u) with
      | None => (Message 500 "Error al procesar la solicitud", us)
      | Some resetToken =>
          (if mailed
           then Message 200
                  "Se ha enviado un enlace para resetear tu contraseña al correo registrado."
           else Message 500 "Error al procesar la solicitud",
           <[i := User (_id u) (email u) (password u)
                    (Some resetToken) (Some (now + 3600000))]> us)
      end
  end.

(** A registration request with what the libraries draw for it, and the
    users a sequence of registrations leaves. *)
Record registration := Registration {
  r_salt : string;
  r_oid : string;
  r_email : string;
  r_password : string
}.

Definition register_all (rs : list registration) (us : list user) : list user :=
  fold_left (λ us r, (register (r_salt r) (r_oid r) (r_email r) (r_password r) us).2)
    rs us.

End Routes.

(** *** GET /api/user *)

Inductive profile :=
  | Profile (e : string)                 (* res.json({ email: user.email }) *)
  | NoProfile (st : Z) (message : string).

Section Profile.

(** Whether a string casts to an ObjectId, and [jwt.verify] as for the
    middleware. *)
Variable castable : string → bool.
Variable verify : string → option (option string).

(** The handler proper. [User.findById(req.userId)] finds nothing for an
    undefined id and throws for a string that is no ObjectId. *)
Definition get_user (userId : option string) (us : list user) : profile :=
  match userId with
  | None => NoProfile 404 "Usuario no encontrado"
  | Some i =>
      if castable i then
        match list_find (λ u, _id u = i) us with
        | Some (_, u) => Profile (email u)
        | None => NoProfile 404 "Usuario no encontrado"
        end
      else NoProfile 500 "Error del servidor"
  end.

(** [app.get('/api/user', authenticate, ...)] *)
Definition user_route (authorization : option string) (us : list user)
  : Auth.verdict + profile :=
  Auth.guarded verify authorization (λ userId, get_user userId us).

End Profile.

End Users.

(** ** server.js: POST /api/products *)

Module Catalog.

(** The seven paths of a product document, as the body of the request gives
    them; a missing string or number is [None], a missing stock is
    [undefined]. *)
Record fields := Fields {
  id : string;
  name : option string;
  price : option Z;
  image : option string;
  category : option string;
  productType : option string;
  stock : Legacy.value
}.

Inductive reply :=
  | Json (product : fields)             (* res.json(product) *)
  | ServerError.                        (* res.status(500).send('Error del servidor') *)

(** [Product.findOne({ id })] *)
Definition findOne (i : string) (c : list fields) : option fields :=
  snd <$> list_find (λ d, id d = i) c.

Section Upsert.

(** Whether [product.save()] resolves (the validation of [ProductSchema]):
    for a new document that carries these values, and for a stored document
    that is given new values. *)
Variable saves_new : fields → bool.
Variable saves_over : fields → fields → bool.

(** Mongoose's [minimize] option, which the schema leaves on: what remains of
    the value of the path [stock] when the document is written to the store
    and when it is serialised for the reply. An empty object does not
    remain: the document is written and sent without it. *)
Variable minimize : Legacy.value → Legacy.value.

(** The document as it is written and sent, for the values of the body. *)
Definition kept (b : fields) : fields :=
  Fields (id b) (name b) (price b) (image b) (category b) (productType b)
    (minimize (stock b)).

(** The handler proper: the document found under the [id] gets the six other
    values of the body, or a new document is made from the seven; it is saved
    and sent back. *)
Definition post_products (b : fields) (c : list fields) : reply * list fields :=
  match list_find (λ d, id d = id b) c with
  | Some (i, old) =>
      if saves_over old b then (Json (kept b), <[i := kept b]> c) else (ServerError, c)
  | None =>
      if saves_new b then (Json (kept b), c ++ [kept b]) else (ServerError, c)
  end.

End Upsert.

End Catalog.

(** * Properties *)

(** ** The store operations *)

Section StockFacts.
Import Stock.

Lemma matches_true (f : filter) (d : doc) :
  matches f d = true ↔
  key_of d = (f_productId f, f_size f, f_color f)
  ∧ ∀ n, f_quantity_gte f = Some n → n <= quantity d.
Proof.
  unfold matches, key_of.
  rewrite !andb_true_iff, !String.eqb_eq. split.
  - intros [[[-> ->] ->] Hq]. split; [done|].
    intros n Hn. rewrite Hn in Hq. lia.
  - intros [Hk Hq]. inversion Hk; subst. split_and!; try done.
    destruct (f_quantity_gte f) as [n|]; [|done].
    specialize (Hq n eq_refl). lia.
Qed.

Lemma matches_key (p s c : string) (d : doc) :
  matches (Filter p s c None) d ↔ key_of d = (p, s, c).
Proof.
  rewrite Is_true_true, matches_true. simpl. split; [tauto|].
  intros Hk. split; [done|]. by intros n.
Qed.

Lemma matches_gte (p s c : string) (n : Z) (d : doc) :
  matches (Filter p s c (Some n)) d ↔ key_of d = (p, s, c) ∧ n <= quantity d.
Proof.
  rewrite Is_true_true, matches_true. simpl. split.
  - intros [? Hn]. split; [done|]. by apply Hn.
  - intros [? ?]. split; [done|]. by intros ? [= <-].
Qed.

Lemma key_of_inc (delta : Z) (d : doc) : key_of (inc delta d) = key_of d.
Proof. done. Qed.

Lemma unique_index_lookup (c : collection) (i j : nat) (d d' : doc) :
  unique_index c → c !! i = Some d → c !! j = Some d' →
  key_of d = key_of d' → i = j.
Proof.
  intros Hu Hi Hj Hk.
  eapply NoDup_lookup; [exact Hu| |].
  - rewrite list_lookup_fmap, Hi. reflexivity.
  - rewrite list_lookup_fmap, Hj. simpl. by rewrite Hk.
Qed.

(** The update leaves every key where it was. *)
Lemma keys_insert_inc (c : collection) (i : nat) (d : doc) (delta : Z) :
  c !! i = Some d → key_of <$> <[i := inc delta d]> c = key_of <$> c.
Proof.
  intros Hi. rewrite list_fmap_insert, key_of_inc.
  apply list_insert_id. by rewrite list_lookup_fmap, Hi.
Qed.

Lemma findOneAndUpdate_keys (f : filter) (delta : Z) (c : collection) :
  key_of <$> (findOneAndUpdate f delta c).2 = key_of <$> c.
Proof.
  unfold findOneAndUpdate.
  destruct (list_find _ c) as [[i d]|] eqn:Hf; [|done].
  apply list_find_Some in Hf as (Hi & _ & _). simpl.
  by apply keys_insert_inc.
Qed.

Lemma findOneAndUpdate_unique (f : filter) (delta : Z) (c : collection) :
  unique_index c → unique_index (findOneAndUpdate f delta c).2.
Proof. unfold unique_index. by rewrite findOneAndUpdate_keys. Qed.

(** With the filter and the update of the reservation no quantity becomes
    negative. *)
Lemma findOneAndUpdate_nonneg (p s col : string) (amt : Z) (c : collection) :
  nonneg c → nonneg (findOneAndUpdate (Filter p s col (Some amt)) (- amt) c).2.
Proof.
  unfold nonneg, findOneAndUpdate. intros Hc.
  destruct (list_find _ c) as [[i d]|] eqn:Hf; [|done].
  apply list_find_Some in Hf as (Hi & Hm & _). simpl.
  apply matches_gte in Hm as [_ Hq].
  apply Forall_insert; [done|]. simpl. lia.
Qed.

(** A rejected update is a null result and leaves the collection as it was. *)
Lemma findOneAndUpdate_null (f : filter) (delta : Z) (c : collection) :
  (findOneAndUpdate f delta c).1 = None → (findOneAndUpdate f delta c).2 = c.
Proof.
  unfold findOneAndUpdate.
  by destruct (list_find _ c) as [[i d]|].
Qed.

Lemma findOne_Some (p s col : string) (c : collection) (d : doc) :
  findOne (Filter p s col None) c = Some d → d ∈ c ∧ key_of d = (p, s, col).
Proof.
  unfold findOne. destruct (list_find _ c) as [[i d']|] eqn:Hf; [|done].
  intros [= <-]. apply list_find_Some in Hf as (Hi & Hm & _).
  split; [by eapply list_elem_of_lookup_2 | by apply matches_key].
Qed.

Lemma findOne_None (p s col : string) (c : collection) :
  findOne (Filter p s col None) c = None ↔ ∀ d, d ∈ c → key_of d ≠ (p, s, col).
Proof.
  unfold findOne. destruct (list_find _ c) as [[i d']|] eqn:Hf; simpl.
  - apply list_find_Some in Hf as (Hi & Hm & _). split; [done|].
    intros H. exfalso. eapply H; [by eapply list_elem_of_lookup_2|].
    by apply matches_key.
  - apply list_find_None in Hf. split; [|done]. intros _ d Hd Hk.
    rewrite Forall_forall in Hf. eapply Hf; [done|]. by apply matches_key.
Qed.

(** Under the unique index the document found with the quantity guard is the
    document found by key alone. *)
Lemma list_find_gte_key (p s col : string) (amt : Z) (c : collection)
    (i : nat) (d : doc) :
  unique_index c →
  list_find (λ d, matches (Filter p s col (Some amt)) d) c = Some (i, d) →
  list_find (λ d, matches (Filter p s col None) d) c = Some (i, d).
Proof.
  intros Hu (Hi & Hm & _)%list_find_Some.
  apply matches_gte in Hm as [Hk _].
  apply list_find_Some. split_and!; [done | by apply matches_key |].
  intros j y Hj Hlt Hy%matches_key.
  assert (j = i); [|lia].
  eapply unique_index_lookup; [done..|congruence].
Qed.

Lemma findOne_insert_inc (p s col : string) (delta : Z) (c : collection)
    (i : nat) (d : doc) :
  list_find (λ d, matches (Filter p s col None) d) c = Some (i, d) →
  findOne (Filter p s col None) (<[i := inc delta d]> c) = Some (inc delta d).
Proof.
  intros (Hi & Hm & Hleast)%list_find_Some. unfold findOne.
  replace (list_find _ (<[i:=inc delta d]> c)) with (Some (i, inc delta d)); [done|].
  symmetry. apply list_find_Some. split_and!.
  - apply list_lookup_insert_eq. by eapply lookup_lt_Some.
  - apply matches_key. rewrite key_of_inc. by apply matches_key.
  - intros j y Hj Hlt. rewrite list_lookup_insert_ne in Hj by lia. eauto.
Qed.

Lemma list_find_insert_other {A} (P : A → Prop) `{∀ x, Decision (P x)}
    (l : list A) (i : nat) (x y : A) :
  l !! i = Some y → ¬ P x → ¬ P y →
  list_find P (<[i := x]> l) = list_find P l.
Proof.
  revert i. induction l as [|a l IH]; intros [|i] Hi Hx Hy; try done.
  - simpl in Hi. injection Hi as ->. simpl. by rewrite !decide_False.
  - simpl in *. case_decide; [done|]. by rewrite IH.
Qed.

(** An update under one key is not seen by a query for another key. *)
Lemma findOne_findOneAndUpdate_ne (p s col p' s' col' : string) (n delta : Z)
    (c : collection) :
  (p, s, col) ≠ (p', s', col') →
  findOne (Filter p' s' col' None)
    (findOneAndUpdate (Filter p s col (Some n)) delta c).2
  = findOne (Filter p' s' col' None) c.
Proof.
  intros Hne. unfold findOneAndUpdate.
  destruct (list_find _ c) as [[i d]|] eqn:Hf; [|done].
  apply list_find_Some in Hf as (Hi & [Hk _]%matches_gte & _). simpl.
  unfold findOne. rewrite (list_find_insert_other _ _ _ _ _ Hi); [done| |].
  - rewrite matches_key, key_of_inc. congruence.
  - rewrite matches_key. congruence.
Qed.

(** Under the unique index the guarded update applies to the record of the
    key as soon as it holds the amount. *)
Lemma findOneAndUpdate_applies (p s col : string) (amt : Z) (c : collection) (d : doc) :
  unique_index c →
  findOne (Filter p s col None) c = Some d →
  amt <= quantity d →
  ∃ c', findOneAndUpdate (Filter p s col (Some amt)) (- amt) c
        = (Some (inc (- amt) d), c').
Proof.
  intros Hu Hd Hq. unfold findOneAndUpdate.
  destruct (list_find (λ d, matches (Filter p s col (Some amt)) d) c)
    as [[i d0]|] eqn:Hf.
  - pose proof (list_find_gte_key _ _ _ _ _ _ _ Hu Hf) as Hk.
    unfold findOne in Hd. rewrite Hk in Hd. injection Hd as ->. by eexists.
  - exfalso. apply findOne_Some in Hd as [Hin Hkey].
    apply list_find_None in Hf. rewrite Forall_forall in Hf.
    apply (Hf d Hin). by apply matches_gte.
Qed.

End StockFacts.

Section Decrement.
Import Stock.

(** C3. Single-line decrement, as the reservation issues it
    ([findOneAndUpdate] with [quantity: { $gte: amt }] and
    [$inc: { quantity: -amt }]), on a collection that respects the unique
    index: it returns a document exactly when the record of the composite key
    exists and holds at least [amt]; the returned quantity is the old one
    minus [amt] and is the one stored afterwards; a null result leaves the
    collection unchanged. *)
Theorem findOneAndUpdate_decrement (c : collection) (p s col : string) (amt : Z) :
  unique_index c →
  let r := findOneAndUpdate (Filter p s col (Some amt)) (- amt) c in
  ((∃ d', r.1 = Some d') ↔
   (∃ d, findOne (Filter p s col None) c = Some d ∧ amt <= quantity d))
  ∧ (∀ d d', findOne (Filter p s col None) c = Some d → r.1 = Some d' →
       quantity d' = quantity d - amt
       ∧ findOne (Filter p s col None) r.2 = Some d')
  ∧ (r.1 = None → r.2 = c).
Proof.
  intros Hu r. subst r. unfold findOneAndUpdate.
  destruct (list_find (λ d, matches (Filter p s col (Some amt)) d) c)
    as [[i d0]|] eqn:Hf; simpl.
  - pose proof (list_find_gte_key _ _ _ _ _ _ _ Hu Hf) as Hk.
    apply list_find_Some in Hf as (Hi & [_ Hq]%matches_gte & _).
    assert (findOne (Filter p s col None) c = Some d0) as Hone
      by (unfold findOne; by rewrite Hk).
    split_and!.
    + split; [|by eauto]. intros _. by exists d0.
    + intros d d' Hd [= <-]. rewrite Hone in Hd. injection Hd as <-.
      split; [simpl; lia|]. by apply findOne_insert_inc.
    + done.
  - split_and!; [|done..]. split; [by intros [? ?]|].
    intros (d & Hd & Hq). exfalso.
    apply findOne_Some in Hd as [Hin Hkey].
    apply list_find_None in Hf. rewrite Forall_forall in Hf.
    apply (Hf d Hin). by apply matches_gte.
Qed.

(** The unique index holds of the collection used below. *)
Lemma findOneAndUpdate_decrement_witness :
  let c := [Doc "A" "M" "red" 5; Doc "B" "L" "blue" 1] in
  unique_index c
  ∧ (findOneAndUpdate (Filter "A" "M" "red" (Some 3)) (- 3) c).1
    = Some (Doc "A" "M" "red" 2)
  ∧ ((findOneAndUpdate (Filter "A" "M" "red" (Some 3)) (- 3) c).1 = None →
     (findOneAndUpdate (Filter "A" "M" "red" (Some 3)) (- 3) c).2 = c).
Proof.
  assert (unique_index [Doc "A" "M" "red" 5; Doc "B" "L" "blue" 1]) as Hu.
  { unfold unique_index. apply (bool_decide_unpack _). vm_compute. exact I. }
  split; [exact Hu|]. split; [reflexivity|].
  exact (proj2 (proj2 (findOneAndUpdate_decrement _ "A" "M" "red" 3 Hu))).
Defined.

End Decrement.

(** ** The routes of the inventory *)

Section Routes.
Import StockRoutes.

Lemma check_loop_lines (its : list item) (acc : list result) (s : db) :
  check_loop (Line <$> its) acc s
  = (inr (acc ++ (result_of (coll s) <$> its)),
     Db (coll s) (log s ++ (EvFindOne ∘ key_of_item <$> its))).
Proof.
  revert acc s. induction its as [|it its IH]; intros acc s.
  - simpl. unfold ret. rewrite !app_nil_r. by destruct s.
  - rewrite fmap_cons. cbn [check_loop]. unfold bind at 1. simpl.
    unfold bind at 1. unfold findOne. simpl.
    rewrite IH. simpl. rewrite <- !app_assoc. reflexivity.
Qed.

(** The entry computed for a tuple says of it what [reports] asks: the
    record found is a record of the collection under the tuple's key, and
    nothing is found only when no record has that key. *)
Lemma result_of_reports (c : Stock.collection) (it : item) :
  reports c it (result_of c it).
Proof.
  unfold reports, result_of, key_filter. simpl. split_and!; try done.
  - destruct (Stock.findOne _ c) as [d|] eqn:Hf.
    + left. apply findOne_Some in Hf as [Hin Hk]. by exists d.
    + right. split; [|done]. by apply findOne_None.
  - intros Hu d Hin Hk.
    destruct (Stock.findOne _ c) as [d'|] eqn:Hf.
    + apply findOne_Some in Hf as [Hin' Hk'].
      apply list_elem_of_lookup in Hin as [i Hi].
      apply list_elem_of_lookup in Hin' as [j Hj].
      assert (i = j) as ->.
      { eapply unique_index_lookup; [done..|]. by rewrite Hk, Hk'. }
      congruence.
    + exfalso. by eapply findOne_None.
Qed.

(** C5. For a list of tuples the stock query answers 200 with one entry per
    tuple, in order. Each entry repeats its tuple's id, size and color, its
    [requested] is the tuple's quantity, and its [available] is the quantity
    of a record of the collection that has the tuple's composite key, and 0
    when no record has that key; where the collection respects the unique
    index of the schema, it is the quantity of the one record of that key.
    The query only reads: the collection is left as it was, and the
    operations issued are one [findOne] per tuple. *)
Theorem check_stock_results (its : list item) (c : Stock.collection) :
  ∃ results,
    check_stock (lines its) c
    = (Responded 200 (CheckOk results), c, EvFindOne ∘ key_of_item <$> its)
    ∧ Forall2 (reports c) its results.
Proof.
  exists (result_of c <$> its). split.
  - unfold check_stock, check_stock_try, lines. unfold bind at 1. simpl.
    unfold bind at 1. simpl. by rewrite check_loop_lines.
  - apply Forall2_fmap_r, Forall_Forall2_diag, Forall_forall.
    intros it _. apply result_of_reports.
Qed.

(** C10. [mongoose] is not among the identifiers bound in the module, and the
    handler evaluates it before the [try] block: whatever the request and the
    collection, the call ends in a [ReferenceError], reports no success,
    leaves every record as it was and issues no operation against the
    store. *)
Theorem update_stock_mongoose_unbound (b : req_body) (c : Stock.collection) :
  bound module_scope "mongoose" = false
  ∧ update_stock b c = (Threw (Js.ReferenceError "mongoose"), c, [])
  ∧ success (update_stock b c).1.1 = false.
Proof. by split_and!. Qed.

(** *** The reservation loop *)

Lemma update_stock_try_array (es : list entry) (s : db) :
  update_stock_try (BodyObject (ItemsArray es)) s = update_loop es [] s.
Proof. reflexivity. Qed.

Lemma update_loop_null (it : item) (rest : list entry) (acc : list update) (s : db) :
  unsatisfiable (coll s) it →
  update_loop (Line it :: rest) acc s
  = (inl (insufficient it),
     Db (coll s)
        (log s ++ [EvFindOneAndUpdate (key_of_item it) (quantity it) (- quantity it)])).
Proof.
  intros Hun. cbn [update_loop]. unfold bind at 1. simpl.
  unfold bind at 1, findOneAndUpdate, key_of_item. simpl.
  unfold Stock.findOneAndUpdate.
  destruct (list_find _ (coll s)) as [[i d]|] eqn:Hf; [|done].
  apply list_find_Some in Hf as (Hi & [Hk Hq]%matches_gte & _).
  apply list_elem_of_lookup_2 in Hi. specialize (Hun d Hi Hk). lia.
Qed.

Lemma update_loop_step (it : item) (rest : list entry) (acc : list update)
    (s : db) (d : Stock.doc) (c' : Stock.collection) :
  Stock.findOneAndUpdate
    (Stock.Filter (id it) (size it) (color it) (Some (quantity it)))
    (- quantity it) (coll s) = (Some d, c') →
  update_loop (Line it :: rest) acc s
  = update_loop rest
      (acc ++ [Update (id it) (size it) (color it) (Stock.quantity d)])
      (Db c' (log s ++ [EvFindOneAndUpdate (key_of_item it) (quantity it) (- quantity it)])).
Proof.
  intros Hf. cbn [update_loop]. unfold bind at 1. simpl.
  unfold bind at 1, findOneAndUpdate, key_of_item. simpl.
  by rewrite Hf.
Qed.

(** A line either is rejected, or is applied by [findOneAndUpdate]. *)
Lemma update_line_cases (it : item) (c : Stock.collection) :
  unsatisfiable c it
  ∨ ∃ d c', Stock.findOneAndUpdate
              (Stock.Filter (id it) (size it) (color it) (Some (quantity it)))
              (- quantity it) c = (Some d, c').
Proof.
  unfold Stock.findOneAndUpdate.
  destruct (list_find _ c) as [[i d]|] eqn:Hf; [right; eauto|left].
  apply list_find_None in Hf. rewrite Forall_forall in Hf.
  intros d Hd Hk. destruct (Z.lt_ge_cases (Stock.quantity d) (quantity it)); [done|].
  exfalso. apply (Hf d Hd). by apply matches_gte.
Qed.

Lemma update_loop_nonneg (es : list entry) (acc : list update) (s : db) :
  Stock.nonneg (coll s) → Stock.nonneg (coll (update_loop es acc s).2).
Proof.
  revert acc s. induction es as [|[|it] es IH]; intros acc s Hs; [done..|].
  destruct (update_line_cases it (coll s)) as [Hun|(d & c' & Hf)].
  - by rewrite update_loop_null.
  - rewrite (update_loop_step _ _ _ _ _ _ Hf). apply IH. simpl.
    pose proof (findOneAndUpdate_nonneg (id it) (size it) (color it)
                  (quantity it) (coll s) Hs) as Hn.
    by rewrite Hf in Hn.
Qed.

Lemma update_stock_try_nonneg (b : req_body) (s : db) :
  Stock.nonneg (coll s) → Stock.nonneg (coll (update_stock_try b s).2).
Proof.
  intros Hs. unfold update_stock_try.
  destruct b as [|[|es]]; [done..|].
  unfold bind at 1. simpl. unfold bind at 1. simpl. by apply update_loop_nonneg.
Qed.

Lemma update_stock_in_nonneg (scope : list string) (b : req_body) (c : Stock.collection) :
  Stock.nonneg c → Stock.nonneg (update_stock_in scope b c).1.2.
Proof.
  intros Hc. unfold update_stock_in. destruct (bound scope "mongoose"); [|done].
  pose proof (update_stock_try_nonneg b (Db c [EvStartSession; EvStartTransaction]) Hc) as Hn.
  by destruct (update_stock_try b _) as [[e|ups] s'].
Qed.

(** *** The query loop *)

Lemma check_loop_coll (es : list entry) (acc : list result) (s : db) :
  coll (check_loop es acc s).2 = coll s.
Proof.
  revert acc s. induction es as [|[|it] es IH]; intros acc s; [done..|].
  cbn [check_loop]. unfold bind at 1. simpl. unfold bind at 1, findOne. simpl.
  by rewrite IH.
Qed.

Lemma check_stock_readonly (b : req_body) (c : Stock.collection) :
  (check_stock b c).1.2 = c.
Proof.
  unfold check_stock, check_stock_try.
  destruct b as [|[|es]]; [done..|].
  unfold bind at 1. simpl. unfold bind at 1. simpl.
  pose proof (check_loop_coll es [] (Db c [])) as Hc.
  by destruct (check_loop es [] _) as [[e|rs] s'].
Qed.

Lemma serve_nonneg (scope : list string) (r : request) (c : Stock.collection) :
  Stock.nonneg c → Stock.nonneg (serve scope r c).1.2.
Proof.
  destruct r as [b|b]; simpl.
  - by rewrite check_stock_readonly.
  - apply update_stock_in_nonneg.
Qed.

(** C2. Quantities never go below 0. Starting from a collection without
    negative quantities: (1) whatever sequence of requests the two routes
    serve, the collection they leave has none; (2) at every point of a
    reservation, finished or interrupted by an exception, the view of the
    session has none; (3) a single-line decrement that would take every
    record of its key below 0 is rejected and changes nothing. *)
Theorem quantity_never_negative (scope : list string) (c : Stock.collection) :
  Stock.nonneg c →
  (∀ rs, Stock.nonneg (serve_all scope rs c))
  ∧ (∀ b t, Stock.nonneg (coll (update_stock_try b (Db c t)).2))
  ∧ (∀ p s col amt,
       (∀ d, d ∈ c → Stock.key_of d = (p, s, col) → Stock.quantity d - amt < 0) →
       Stock.findOneAndUpdate (Stock.Filter p s col (Some amt)) (- amt) c = (None, c)).
Proof.
  intros Hc. split_and!.
  - intros rs. revert c Hc. unfold serve_all.
    induction rs as [|r rs IH]; intros c Hc; [done|].
    simpl. apply IH. by apply serve_nonneg.
  - intros b t. by apply update_stock_try_nonneg.
  - intros p s col amt Hlow. unfold Stock.findOneAndUpdate.
    destruct (list_find _ c) as [[i d]|] eqn:Hf; [|done].
    apply list_find_Some in Hf as (Hi & [Hk Hq]%matches_gte & _).
    apply list_elem_of_lookup_2 in Hi. specialize (Hlow d Hi Hk). lia.
Qed.

Lemma quantity_never_negative_witness :
  let c := [Stock.Doc "A" "M" "red" 5] in
  Stock.nonneg c
  ∧ Stock.nonneg
      (serve_all ("mongoose" :: module_scope)
         [UpdateStock (lines [Item "A" "M" "red" 3]);
          UpdateStock (lines [Item "A" "M" "red" 3])] c).
Proof.
  assert (Stock.nonneg [Stock.Doc "A" "M" "red" 5]) as Hc.
  { apply Forall_cons. split; [simpl; lia|apply Forall_nil_2]. }
  split; [exact Hc|].
  exact (proj1 (quantity_never_negative ("mongoose" :: module_scope) _ Hc) _).
Defined.

(** *** Malformed requests *)

Lemma check_loop_null (es : list entry) (acc : list result) (s : db) :
  ENull ∈ es →
  check_loop es acc s
  = (inl (Js.TypeError (Js.ReadOfNull "id")),
     Db (coll s) (log s ++ (EvFindOne ∘ key_of_item <$> lines_before_null es))).
Proof.
  revert acc s. induction es as [|[|it] es IH]; intros acc s Hin.
  - by apply elem_of_nil in Hin.
  - simpl. rewrite app_nil_r. by destruct s.
  - apply elem_of_cons in Hin as [?|Hin]; [done|].
    cbn [check_loop]. unfold bind at 1. simpl. unfold bind at 1, findOne. simpl.
    rewrite (IH _ _ Hin). simpl. by rewrite <- app_assoc.
Qed.

Lemma update_loop_with_null (es : list entry) (acc : list update) (s : db) :
  ENull ∈ es → ∃ e, (update_loop es acc s).1 = inl e.
Proof.
  revert acc s. induction es as [|[|it] es IH]; intros acc s Hin.
  - by apply elem_of_nil in Hin.
  - by eexists.
  - apply elem_of_cons in Hin as [?|Hin]; [done|].
    destruct (update_line_cases it (coll s)) as [Hun|(d & c' & Hf)].
    + rewrite update_loop_null by done. by eexists.
    + rewrite (update_loop_step _ _ _ _ _ _ Hf). by apply IH.
Qed.

(** Whatever makes a reservation fail, the collection is the one it found. *)
Lemma update_stock_in_failure_restores (scope : list string) (b : req_body)
    (c : Stock.collection) :
  success (update_stock_in scope b c).1.1 = false →
  (update_stock_in scope b c).1.2 = c.
Proof.
  unfold update_stock_in. destruct (bound scope "mongoose"); [|done].
  by destruct (update_stock_try b _) as [[e|ups] s'].
Qed.

(** C8, as the code has it. The routes validate nothing: a malformed request
    is noticed when the handler trips over it. The stock query answers it
    with status 500 and the exception raised, after one read for every line
    that precedes the first [null] (none when the body or [items] is
    missing), and changes no record. The reservation does not report success
    for it and leaves every record as it was. *)
Theorem malformed_request (scope : list string) (b : req_body) (c : Stock.collection) :
  malformed b →
  check_stock b c = (Responded 500 (Failure (malformed_error b)), c, reads_of b)
  ∧ success (update_stock_in scope b c).1.1 = false
  ∧ (update_stock_in scope b c).1.2 = c.
Proof.
  intros Hb.
  assert (success (update_stock_in scope b c).1.1 = false) as Hfail.
  { unfold update_stock_in. destruct (bound scope "mongoose"); [|done].
    unfold update_stock_try. destruct b as [|[|es]]; [done..|].
    unfold bind at 1. simpl. unfold bind at 1. simpl.
    destruct (update_loop_with_null es [] (Db c [EvStartSession; EvStartTransaction]) Hb)
      as [e He].
    destruct (update_loop es [] _) as [[e'|ups] s']; [done|discriminate]. }
  split_and!; [|done|by apply update_stock_in_failure_restores].
  unfold check_stock, check_stock_try. destruct b as [|[|es]]; [done..|].
  unfold bind at 1. simpl. unfold bind at 1. simpl.
  by rewrite check_loop_null.
Qed.

Lemma malformed_request_witness :
  let b := BodyObject (ItemsArray [Line (Item "A" "M" "red" 1); ENull]) in
  malformed b
  ∧ check_stock b [Stock.Doc "A" "M" "red" 5]
    = (Responded 500 (Failure (Js.TypeError (Js.ReadOfNull "id"))),
       [Stock.Doc "A" "M" "red" 5],
       [EvFindOne ("A", "M", "red")]).
Proof.
  assert (malformed (BodyObject (ItemsArray [Line (Item "A" "M" "red" 1); ENull]))) as Hb.
  { simpl. apply elem_of_cons. right. apply elem_of_cons. by left. }
  split; [exact Hb|].
  exact (proj1 (malformed_request module_scope _ [Stock.Doc "A" "M" "red" 5] Hb)).
Defined.

(** C8 fails as stated: for a request whose second item is [null] the stock
    query reads the record of the first item before it rejects the request,
    and the rejection is a status 500; and where [mongoose] is bound the
    reservation opens a session and a transaction before it looks at a
    request without [items]. *)
Lemma null_item_read_before_rejection :
  malformed (BodyObject (ItemsArray [Line (Item "A" "M" "red" 1); ENull]))
  ∧ check_stock (BodyObject (ItemsArray [Line (Item "A" "M" "red" 1); ENull]))
      [Stock.Doc "A" "M" "red" 5]
    = (Responded 500 (Failure (Js.TypeError (Js.ReadOfNull "id"))),
       [Stock.Doc "A" "M" "red" 5],
       [EvFindOne ("A", "M", "red")])
  ∧ malformed (BodyObject ItemsUndefined)
  ∧ update_stock_in ("mongoose" :: module_scope) (BodyObject ItemsUndefined)
      [Stock.Doc "A" "M" "red" 5]
    = (Responded 400 (Failure (Js.TypeError (Js.NotIterable "items"))),
       [Stock.Doc "A" "M" "red" 5],
       [EvStartSession; EvStartTransaction; EvAbort; EvEndSession]).
Proof.
  split; [|split; [reflexivity|split; [exact I|reflexivity]]].
  simpl. apply elem_of_cons. right. apply elem_of_cons. by left.
Qed.

(** *** Failure reports *)

Lemma not_found_unsatisfiable (c : Stock.collection) (it : item) :
  not_found c it → unsatisfiable c it.
Proof. intros Hnf d Hd Hk. by destruct (Hnf d Hd). Qed.

Lemma update_stock_in_single_rejected (scope : list string) (it : item)
    (c : Stock.collection) :
  unsatisfiable c it →
  (update_stock_in scope (lines [it]) c).1.1
  = if bound scope "mongoose" then Responded 400 (Failure (insufficient it))
    else Threw (Js.ReferenceError "mongoose").
Proof.
  intros Hun. unfold update_stock_in. destruct (bound scope "mongoose"); [|done].
  unfold lines. rewrite update_stock_try_array.
  change (Line <$> [it]) with [Line it].
  by rewrite update_loop_null.
Qed.

(** C4, as the code has it. A line is rejected through the null result of one
    guarded update, and the report is built from the line alone: a line whose
    record is missing and a line whose record holds too little are reported
    alike, both where the loop throws and in what the caller of a one-line
    request receives. *)
Theorem rejection_report_same (scope : list string) (it : item)
    (c1 c2 : Stock.collection) :
  not_found c1 it → insufficient_quantity c2 it →
  (∀ rest acc t,
     (update_loop (Line it :: rest) acc (Db c1 t)).1 = inl (insufficient it)
     ∧ (update_loop (Line it :: rest) acc (Db c2 t)).1 = inl (insufficient it))
  ∧ (update_stock_in scope (lines [it]) c1).1.1
    = (update_stock_in scope (lines [it]) c2).1.1.
Proof.
  intros Hnf%not_found_unsatisfiable [_ Hlow]. split.
  - intros rest acc t. by rewrite !update_loop_null.
  - by rewrite !update_stock_in_single_rejected.
Qed.

Lemma rejection_report_same_witness :
  let it := Item "A" "M" "red" 3 in
  not_found [] it
  ∧ insufficient_quantity [Stock.Doc "A" "M" "red" 2] it
  ∧ (update_stock_in ("mongoose" :: module_scope) (lines [it]) []).1.1
    = (update_stock_in ("mongoose" :: module_scope) (lines [it])
         [Stock.Doc "A" "M" "red" 2]).1.1.
Proof.
  assert (not_found [] (Item "A" "M" "red" 3)) as Hnf.
  { intros d Hd. by apply elem_of_nil in Hd. }
  assert (insufficient_quantity [Stock.Doc "A" "M" "red" 2] (Item "A" "M" "red" 3)) as Hlow.
  { split.
    - eexists. split; [apply list_elem_of_singleton; reflexivity|reflexivity].
    - intros d ->%list_elem_of_singleton _. simpl. lia. }
  split; [exact Hnf|]. split; [exact Hlow|].
  exact (proj2 (rejection_report_same ("mongoose" :: module_scope) _ _ _ Hnf Hlow)).
Defined.

(** C4 fails as stated: the reports for a missing record and for a record
    that holds too little are the same, in the module as it is and in one
    that binds [mongoose]. *)
Lemma rejection_reports_coincide :
  not_found [] (Item "A" "M" "red" 3)
  ∧ insufficient_quantity [Stock.Doc "A" "M" "red" 2] (Item "A" "M" "red" 3)
  ∧ (update_stock (lines [Item "A" "M" "red" 3]) []).1.1
    = (update_stock (lines [Item "A" "M" "red" 3]) [Stock.Doc "A" "M" "red" 2]).1.1
  ∧ (update_stock_in ("mongoose" :: module_scope) (lines [Item "A" "M" "red" 3]) []).1.1
    = Responded 400 (Failure (Js.Error "Stock insuficiente para A-M-red"))
  ∧ (update_stock_in ("mongoose" :: module_scope) (lines [Item "A" "M" "red" 3])
       [Stock.Doc "A" "M" "red" 2]).1.1
    = Responded 400 (Failure (Js.Error "Stock insuficiente para A-M-red")).
Proof.
  split_and!; [| |reflexivity..].
  - intros d Hd. by apply elem_of_nil in Hd.
  - split.
    + eexists. split; [apply list_elem_of_singleton; reflexivity|reflexivity].
    + intros d ->%list_elem_of_singleton _. simpl. lia.
Qed.

(** *** Reservations in a module that binds [mongoose] *)

(** Scenario 5 of the specification, second step: the record holds 2 after a
    first reservation of 3 out of 5; reserving 3 again is refused and the
    record still holds 2. *)
Example reserve_twice :
  update_stock_in ("mongoose" :: module_scope) (lines [Item "A" "M" "red" 3])
    (update_stock_in ("mongoose" :: module_scope) (lines [Item "A" "M" "red" 3])
       [Stock.Doc "A" "M" "red" 5]).1.2
  = (Responded 400 (Failure (Js.Error "Stock insuficiente para A-M-red")),
     [Stock.Doc "A" "M" "red" 2],
     [EvStartSession; EvStartTransaction;
      EvFindOneAndUpdate ("A", "M", "red") 3 (-3);
      EvAbort; EvEndSession]).
Proof. reflexivity. Qed.

(** Scenario 6: the first line is applied in the session, the second is
    rejected, and the first record is back at 5. *)
Example reserve_second_line_rejected :
  update_stock_in ("mongoose" :: module_scope)
    (lines [Item "A" "M" "red" 1; Item "B" "L" "blue" 4])
    [Stock.Doc "A" "M" "red" 5; Stock.Doc "B" "L" "blue" 1]
  = (Responded 400 (Failure (Js.Error "Stock insuficiente para B-L-blue")),
     [Stock.Doc "A" "M" "red" 5; Stock.Doc "B" "L" "blue" 1],
     [EvStartSession; EvStartTransaction;
      EvFindOneAndUpdate ("A", "M", "red") 1 (-1);
      EvFindOneAndUpdate ("B", "L", "blue") 4 (-4);
      EvAbort; EvEndSession]).
Proof. reflexivity. Qed.

(** A line with a negative amount adds to the record, and a later line can
    draw on it. *)
Example reserve_negative_amount :
  (update_stock_in ("mongoose" :: module_scope)
     (lines [Item "A" "M" "red" (-10); Item "A" "M" "red" 8])
     [Stock.Doc "A" "M" "red" 5]).1
  = (Responded 200 (UpdateOk [Update "A" "M" "red" 15; Update "A" "M" "red" 7]),
     [Stock.Doc "A" "M" "red" 7]).
Proof. reflexivity. Qed.

Lemma update_stock_in_bound (scope : list string) (es : list entry)
    (c : Stock.collection) :
  bound scope "mongoose" = true →
  update_stock_in scope (BodyObject (ItemsArray es)) c
  = match update_loop es [] (Db c [EvStartSession; EvStartTransaction]) with
    | (inr updates, s) =>
        (Responded 200 (UpdateOk updates), coll s, log s ++ [EvCommit; EvEndSession])
    | (inl e, s) =>
        (Responded 400 (Failure e), c, log s ++ [EvAbort; EvEndSession])
    end.
Proof. intros Hb. unfold update_stock_in. by rewrite Hb. Qed.

(** A failing loop stops at the first line that is rejected in the state the
    lines before it have produced, and throws the report of that line. *)
Lemma update_loop_failure (its : list item) (acc : list update) (s s' : db)
    (e : Js.error) :
  update_loop (Line <$> its) acc s = (inl e, s') →
  ∃ pre it post ups spre,
    its = pre ++ it :: post
    ∧ update_loop (Line <$> pre) acc s = (inr ups, spre)
    ∧ unsatisfiable (coll spre) it
    ∧ e = insufficient it.
Proof.
  revert acc s. induction its as [|it its IH]; intros acc s Hl; [done|].
  rewrite fmap_cons in Hl.
  destruct (update_line_cases it (coll s)) as [Hun|(d & c' & Hf)].
  - rewrite update_loop_null in Hl by done. injection Hl as <- <-.
    by exists [], it, its, acc, s.
  - rewrite (update_loop_step _ _ _ _ _ _ Hf) in Hl.
    apply IH in Hl as (pre & it' & post & ups & spre & -> & Hpre & Hun & ->).
    exists (it :: pre), it', post, ups, spre. split_and!; try done.
    rewrite fmap_cons. by rewrite (update_loop_step _ _ _ _ _ _ Hf).
Qed.

(** With [mongoose] bound, a failed reservation answers once, with status
    400 and the report of the first rejected line. *)
Lemma update_stock_in_first_rejected (scope : list string) (its : list item)
    (c : Stock.collection) :
  bound scope "mongoose" = true →
  success (update_stock_in scope (lines its) c).1.1 = false →
  ∃ pre it post ups spre,
    its = pre ++ it :: post
    ∧ update_loop (Line <$> pre) [] (Db c [EvStartSession; EvStartTransaction])
      = (inr ups, spre)
    ∧ unsatisfiable (coll spre) it
    ∧ (update_stock_in scope (lines its) c).1.1
      = Responded 400 (Failure (insufficient it)).
Proof.
  intros Hb. unfold lines. rewrite update_stock_in_bound by done.
  destruct (update_loop _ _ _) as [[e|ups] s'] eqn:Hl; [|done]. intros _.
  apply update_loop_failure in Hl as (pre & it & post & ups & spre & ? & ? & ? & ->).
  by exists pre, it, post, ups, spre.
Qed.

Lemma update_loop_satisfiable (its : list item) (acc : list update) (s : db) :
  Stock.unique_index (coll s) →
  NoDup (key_of_item <$> its) →
  (∀ it, it ∈ its → satisfiable (coll s) it) →
  ∃ s', update_loop (Line <$> its) acc s
        = (inr (acc ++ (update_of (coll s) <$> its)), s').
Proof.
  revert acc s. induction its as [|it its IH]; intros acc s Hu Hnd Hsat.
  - exists s. simpl. by rewrite app_nil_r.
  - rewrite !fmap_cons. rewrite fmap_cons in Hnd.
    apply NoDup_cons in Hnd as [Hnotin Hnd].
    destruct (Hsat it) as (d & Hd & Hq); [by left|].
    destruct (findOneAndUpdate_applies (id it) (size it) (color it) (quantity it)
                (coll s) d Hu Hd Hq) as [c' Hf].
    set (d' := Stock.inc (- quantity it) d) in *.
    assert (Stock.quantity d' = Stock.quantity d - quantity it) as Hq'
      by (subst d'; simpl; lia).
    clearbody d'.
    rewrite (update_loop_step _ _ _ _ _ _ Hf).
    assert (∀ it', it' ∈ its →
              Stock.findOne (key_filter it') c' = Stock.findOne (key_filter it') (coll s))
      as Hsame.
    { intros it' Hin. unfold key_filter.
      replace c' with (Stock.findOneAndUpdate
        (Stock.Filter (id it) (size it) (color it) (Some (quantity it)))
        (- quantity it) (coll s)).2 by (by rewrite Hf).
      apply findOne_findOneAndUpdate_ne. intros Heq. apply Hnotin.
      apply list_elem_of_fmap. exists it'. split; [|done]. by unfold key_of_item. }
    destruct (IH (acc ++ [Update (id it) (size it) (color it) (Stock.quantity d')])
                (Db c' (log s ++ [EvFindOneAndUpdate (key_of_item it) (quantity it)
                                    (- quantity it)]))) as [s' Hs'].
    + simpl. pose proof (findOneAndUpdate_unique
        (Stock.Filter (id it) (size it) (color it) (Some (quantity it)))
        (- quantity it) (coll s) Hu) as Hu'. by rewrite Hf in Hu'.
    + done.
    + intros it' Hin. unfold satisfiable. simpl. rewrite (Hsame it' Hin).
      apply Hsat. by right.
    + assert (update_of (coll s) it
              = Update (id it) (size it) (color it) (Stock.quantity d')) as Hhead.
      { unfold update_of. by rewrite Hd, Hq'. }
      assert (update_of c' <$> its = update_of (coll s) <$> its) as Htail.
      { apply list_fmap_ext. intros j it' Hj. unfold update_of.
        rewrite Hsame; [done|]. by eapply list_elem_of_lookup_2. }
      exists s'. rewrite Hs'. cbn [coll].
      by rewrite <- app_assoc, Htail, Hhead.
Qed.

(** With [mongoose] bound, a request whose lines have distinct keys and are
    all satisfiable succeeds: one update per line, in order, carrying the
    record's quantity minus the requested amount. *)
Lemma update_stock_in_satisfiable (scope : list string) (its : list item)
    (c : Stock.collection) :
  bound scope "mongoose" = true →
  Stock.unique_index c →
  NoDup (key_of_item <$> its) →
  (∀ it, it ∈ its → satisfiable c it) →
  (update_stock_in scope (lines its) c).1.1
  = Responded 200 (UpdateOk (update_of c <$> its)).
Proof.
  intros Hb Hu Hnd Hsat. unfold lines. rewrite update_stock_in_bound by done.
  destruct (update_loop_satisfiable its [] (Db c [EvStartSession; EvStartTransaction])
              Hu Hnd Hsat) as [s' ->].
  done.
Qed.

(** C6, at the request of one satisfiable line [A/M/red x3] against a record
    that holds 5: the handler of the repository ends in the [ReferenceError]
    on [mongoose] and reports no success, where the reply should be a success
    with the new stock 2, which is what a module that binds [mongoose]
    sends. *)
Theorem update_stock_satisfiable_fails :
  satisfiable [Stock.Doc "A" "M" "red" 5] (Item "A" "M" "red" 3)
  ∧ update_stock (lines [Item "A" "M" "red" 3]) [Stock.Doc "A" "M" "red" 5]
    = (Threw (Js.ReferenceError "mongoose"), [Stock.Doc "A" "M" "red" 5], [])
  ∧ update_stock_in ("mongoose" :: module_scope) (lines [Item "A" "M" "red" 3])
      [Stock.Doc "A" "M" "red" 5]
    = (Responded 200 (UpdateOk [Update "A" "M" "red" 2]),
       [Stock.Doc "A" "M" "red" 2],
       [EvStartSession; EvStartTransaction;
        EvFindOneAndUpdate ("A", "M", "red") 3 (-3);
        EvCommit; EvEndSession]).
Proof.
  split_and!; [|reflexivity..].
  exists (Stock.Doc "A" "M" "red" 5). split; [reflexivity|simpl; lia].
Qed.

(** C7, at the request of one line [A/M/red x3] against a record that holds
    2: the handler of the repository ends in the [ReferenceError] on
    [mongoose] and sends no reply, where the caller should receive status 400
    with the message naming A-M-red, which is what a module that binds
    [mongoose] sends. *)
Theorem update_stock_rejected_no_report :
  unsatisfiable [Stock.Doc "A" "M" "red" 2] (Item "A" "M" "red" 3)
  ∧ update_stock (lines [Item "A" "M" "red" 3]) [Stock.Doc "A" "M" "red" 2]
    = (Threw (Js.ReferenceError "mongoose"), [Stock.Doc "A" "M" "red" 2], [])
  ∧ update_stock_in ("mongoose" :: module_scope) (lines [Item "A" "M" "red" 3])
      [Stock.Doc "A" "M" "red" 2]
    = (Responded 400 (Failure (Js.Error "Stock insuficiente para A-M-red")),
       [Stock.Doc "A" "M" "red" 2],
       [EvStartSession; EvStartTransaction;
        EvFindOneAndUpdate ("A", "M", "red") 3 (-3);
        EvAbort; EvEndSession]).
Proof.
  split_and!; [|reflexivity..].
  intros d ->%list_elem_of_singleton _. simpl. lia.
Qed.

(** *** All or nothing *)

Lemma unsatisfiable_null (c : Stock.collection) (it : item) :
  unsatisfiable c it →
  Stock.findOneAndUpdate
    (Stock.Filter (id it) (size it) (color it) (Some (quantity it)))
    (- quantity it) c = (None, c).
Proof.
  intros Hun. unfold Stock.findOneAndUpdate.
  destruct (list_find _ c) as [[i d]|] eqn:Hf; [|done].
  apply list_find_Some in Hf as (Hi & [Hk Hq]%matches_gte & _).
  apply list_elem_of_lookup_2 in Hi. specialize (Hun d Hi Hk). lia.
Qed.

(** A line that takes a non-negative amount makes no other line
    satisfiable. *)
Lemma findOneAndUpdate_keeps_unsatisfiable (it0 it : item) (c c' : Stock.collection)
    (d : Stock.doc) :
  0 <= quantity it0 →
  Stock.findOneAndUpdate
    (Stock.Filter (id it0) (size it0) (color it0) (Some (quantity it0)))
    (- quantity it0) c = (Some d, c') →
  unsatisfiable c it → unsatisfiable c' it.
Proof.
  intros Hpos Hf Hun. unfold Stock.findOneAndUpdate in Hf.
  destruct (list_find _ c) as [[i d0]|] eqn:Hfind; [|done].
  injection Hf as _ <-.
  apply list_find_Some in Hfind as (Hi & _ & _).
  intros x [j Hj]%list_elem_of_lookup Hk.
  apply list_lookup_insert_Some in Hj as [(_ & <- & _)|[_ Hj]].
  - apply list_elem_of_lookup_2 in Hi. specialize (Hun d0 Hi Hk). simpl. lia.
  - apply list_elem_of_lookup_2 in Hj. by apply Hun.
Qed.

Lemma update_loop_unsatisfiable (es : list entry) (acc : list update) (s : db) :
  (∀ it, Line it ∈ es → 0 <= quantity it) →
  (∃ it, Line it ∈ es ∧ unsatisfiable (coll s) it) →
  ∃ e, (update_loop es acc s).1 = inl e.
Proof.
  revert acc s. induction es as [|[|it0] es IH]; intros acc s Hpos (it & Hin & Hun).
  - by apply elem_of_nil in Hin.
  - by eexists.
  - destruct (update_line_cases it0 (coll s)) as [Hun0|(d & c' & Hf)].
    + rewrite update_loop_null by done. by eexists.
    + rewrite (update_loop_step _ _ _ _ _ _ Hf). apply IH.
      * intros it' Hin'. apply Hpos. by right.
      * exists it. apply elem_of_cons in Hin as [[= ->]|Hin].
        { rewrite (unsatisfiable_null _ _ Hun) in Hf. discriminate. }
        split; [done|]. simpl.
        eapply findOneAndUpdate_keeps_unsatisfiable; [|exact Hf|exact Hun].
        apply Hpos. by left.
Qed.

(** Whatever the module binds: a request of lines with non-negative amounts,
    one of which is unsatisfiable, fails and leaves the collection as it
    was. *)
Lemma update_stock_in_all_or_nothing (scope : list string) (es : list entry)
    (c : Stock.collection) :
  (∀ it, Line it ∈ es → 0 <= quantity it) →
  (∃ it, Line it ∈ es ∧ unsatisfiable c it) →
  success (update_stock_in scope (BodyObject (ItemsArray es)) c).1.1 = false
  ∧ (update_stock_in scope (BodyObject (ItemsArray es)) c).1.2 = c.
Proof.
  intros Hpos Hun.
  assert (success (update_stock_in scope (BodyObject (ItemsArray es)) c).1.1 = false)
    as Hfail.
  { unfold update_stock_in. destruct (bound scope "mongoose"); [|done].
    rewrite update_stock_try_array.
    destruct (update_loop_unsatisfiable es []
                (Db c [EvStartSession; EvStartTransaction]) Hpos Hun) as [e He].
    destruct (update_loop es [] _) as [[e'|ups] s']; [done|discriminate]. }
  split; [done|]. by apply update_stock_in_failure_restores.
Qed.

(** C1, at scenario 6 of the specification, a request of two lines of which
    the first is satisfiable and the second is not: the handler of the
    repository ends in the [ReferenceError] on [mongoose] before its [try]
    block, so it returns no failure, no reply being sent at all, where the
    caller should be told that the request failed. The records are as they
    were. A module that binds [mongoose] does what the specification asks:
    the first line is applied in the session, the second is rejected, the
    transaction is aborted, the reply is a 400 and the collection is the one
    before the call. *)
Theorem update_stock_unsatisfiable_no_failure :
  (2 <= length [Line (Item "A" "M" "red" 1); Line (Item "B" "L" "blue" 4)])%nat
  ∧ satisfiable [Stock.Doc "A" "M" "red" 5; Stock.Doc "B" "L" "blue" 1]
      (Item "A" "M" "red" 1)
  ∧ unsatisfiable [Stock.Doc "A" "M" "red" 5; Stock.Doc "B" "L" "blue" 1]
      (Item "B" "L" "blue" 4)
  ∧ update_stock
      (BodyObject (ItemsArray [Line (Item "A" "M" "red" 1); Line (Item "B" "L" "blue" 4)]))
      [Stock.Doc "A" "M" "red" 5; Stock.Doc "B" "L" "blue" 1]
    = (Threw (Js.ReferenceError "mongoose"),
       [Stock.Doc "A" "M" "red" 5; Stock.Doc "B" "L" "blue" 1], [])
  ∧ update_stock_in ("mongoose" :: module_scope)
      (BodyObject (ItemsArray [Line (Item "A" "M" "red" 1); Line (Item "B" "L" "blue" 4)]))
      [Stock.Doc "A" "M" "red" 5; Stock.Doc "B" "L" "blue" 1]
    = (Responded 400 (Failure (Js.Error "Stock insuficiente para B-L-blue")),
       [Stock.Doc "A" "M" "red" 5; Stock.Doc "B" "L" "blue" 1],
       [EvStartSession; EvStartTransaction;
        EvFindOneAndUpdate ("A", "M", "red") 1 (-1);
        EvFindOneAndUpdate ("B", "L", "blue") 4 (-4);
        EvAbort; EvEndSession]).
Proof.
  split_and!; [simpl; lia| | |reflexivity..].
  - exists (Stock.Doc "A" "M" "red" 5). split; [reflexivity|simpl; lia].
  - intros d [->|[->|[]%elem_of_nil]%elem_of_cons]%elem_of_cons Hk.
    + discriminate Hk.
    + simpl. lia.
Qed.

End Routes.

(** ** The legacy catalog stock update *)

Section LegacyFacts.
Import Legacy.

Variable StringToNumber : string → num.
Variable ObjectToNumber : value → Js.error + num.
Variable toUpperCase : string → string.

(** The handler on matching entries, with [ToNumber] on strings and objects
    never reached. Beside each reply, what the collection holds afterwards:
    the changes made inside the value of [stock] are not written. *)

Example clothing_sold :
  let shirt := Product clothing (VObj [("M-red", VObj [("quantity", VNum 5)])]) in
  let order := Body (Some "M") (Some "red") (VNum 2) in
  Legacy.update_stock (λ _, nan) (λ _, inr nan) upper (Some shirt) (Some order)
  = Outcome 200 JsonSuccess
      (Some (Product clothing (VObj [("M-red", VObj [("quantity", VNum 3)])])))
  ∧ store_after (λ _, nan) (λ _, inr nan) upper (Some shirt) (Some order) = Some shirt.
Proof. split; reflexivity. Qed.

Example clothing_out_of_stock :
  Legacy.update_stock (λ _, nan) (λ _, inr nan) upper
    (Some (Product clothing (VObj [("M-red", VObj [("quantity", VNum 5)])])))
    (Some (Body (Some "M") (Some "red") (VNum 7)))
  = Outcome 400 (Send "No hay suficiente stock") None.
Proof. reflexivity. Qed.

Example gloves_array_sold :
  let pair := Product gloves
    (VArr [VObj [("size", VStr "l"); ("quantity", VNum 1)];
           VObj [("talla", VStr "m"); ("quantity", VNum 4)]] []) in
  let order := Body (Some "M") None (VNum 1) in
  Legacy.update_stock (λ _, nan) (λ _, inr nan) upper (Some pair) (Some order)
  = Outcome 200 JsonSuccess
      (Some (Product gloves
               (VArr [VObj [("size", VStr "l"); ("quantity", VNum 1)];
                      VObj [("talla", VStr "m"); ("quantity", VNum 3)]] [])))
  ∧ store_after (λ _, nan) (λ _, inr nan) upper (Some pair) (Some order) = Some pair.
Proof. split; reflexivity. Qed.

Example kneepads_object_sold :
  let pads := Product kneepads (VObj [("UNICA", VNum 4)]) in
  let order := Body None None (VNum 1) in
  Legacy.update_stock (λ _, nan) (λ _, inr nan) upper (Some pads) (Some order)
  = Outcome 200 JsonSuccess (Some (Product kneepads (VObj [("UNICA", VNum 3)])))
  ∧ store_after (λ _, nan) (λ _, inr nan) upper (Some pads) (Some order) = Some pads.
Proof. split; reflexivity. Qed.

(** A stock that is a number is assigned anew, and written. *)
Example accessory_number_sold :
  let cap := Product accessory (VNum 5) in
  let order := Body None None (VNum 2) in
  Legacy.update_stock (λ _, nan) (λ _, inr nan) upper (Some cap) (Some order)
  = Outcome 200 JsonSuccess (Some (Product accessory (VNum 3)))
  ∧ store_after (λ _, nan) (λ _, inr nan) upper (Some cap) (Some order)
    = Some (Product accessory (VNum 3)).
Proof. split; reflexivity. Qed.

(** A request without a quantity: [5 - undefined] is [NaN], which is not
    below zero, and [NaN] is written. A quantity of one half leaves 4.5, and
    above 2^53 a unit is lost to rounding. *)
Example accessory_missing_quantity :
  store_after (λ _, nan) (λ _, inr nan) upper
    (Some (Product accessory (VNum 5))) (Some (Body None None VUndefined))
  = Some (Product accessory (VNum nan))
  ∧ store_after (λ _, nan) (λ _, inr nan) upper
      (Some (Product accessory (VNum 5))) (Some (Body None None (VNum 0.5)))
    = Some (Product accessory (VNum 4.5))
  ∧ store_after (λ _, nan) (λ _, inr nan) upper
      (Some (Product accessory (VNum 9007199254740992)))
      (Some (Body None None (VNum (-1))))
    = Some (Product accessory (VNum 9007199254740992)).
Proof. split_and!; reflexivity. Qed.

(** A numeric entry has no [quantity]: nothing is taken from it and the
    request is reported as a success. *)
Example clothing_numeric_entry :
  Legacy.update_stock (λ _, nan) (λ _, inr nan) upper
    (Some (Product clothing (VObj [("M-red", VNum 5)])))
    (Some (Body (Some "M") (Some "red") (VNum 7)))
  = Outcome 200 JsonSuccess (Some (Product clothing (VObj [("M-red", VNum 5)]))).
Proof. reflexivity. Qed.

Lemma get_props (v : value) (k : string) (fs : list (string * value)) :
  props v = Some fs → get v k = inr (own k fs).
Proof. destruct v; simpl; intros Hp; try done; by injection Hp as <-. Qed.

Lemma upper_opt_size_like (sizeKey : string) (v : value) :
  size_like v = true →
  ∃ u, upper_opt toUpperCase v = inr u
       ∧ is_str u sizeKey = names_size toUpperCase sizeKey v.
Proof. destruct v; try done; by eexists. Qed.

Lemma size_matches_other (sizeKey : string) (item : value) :
  other_size toUpperCase sizeKey item = true →
  size_matches toUpperCase sizeKey item = inr false.
Proof.
  unfold other_size, size_matches.
  destruct (props item) as [fs|] eqn:Hp; [|done].
  rewrite !andb_true_iff, !negb_true_iff. intros [[[Hs Ht] Hns] Hnt].
  rewrite !(get_props _ _ _ Hp).
  destruct (upper_opt_size_like sizeKey _ Hs) as (u & -> & ->).
  destruct (upper_opt_size_like sizeKey _ Ht) as (u' & -> & ->).
  by rewrite Hns, Hnt.
Qed.

Lemma findIndex_none (sizeKey : string) (l : list value) (i : nat) :
  forallb (other_size toUpperCase sizeKey) l = true →
  findIndex toUpperCase sizeKey l i = inr None.
Proof.
  revert i. induction l as [|item l IH]; intros i; [done|].
  simpl. rewrite andb_true_iff. intros [Hitem Hl].
  rewrite (size_matches_other _ _ Hitem). by apply IH.
Qed.

(** The generic reply is sent in no other case. *)

Lemma size_matches_false (sizeKey : string) (item : value) :
  size_matches toUpperCase sizeKey item = inr false →
  other_size toUpperCase sizeKey item = true.
Proof.
  unfold size_matches, other_size.
  destruct (props item) as [fs|] eqn:Hp; [|by destruct item].
  rewrite !(get_props _ _ _ Hp).
  destruct (own "size" fs) as [| | | |sz| |]; simpl; try done;
    destruct (own "talla" fs) as [| | | |ta| |]; simpl; try done;
    repeat (destruct (String.eqb _ sizeKey); simpl; try done).
Qed.

Lemma findIndex_None_inv (sizeKey : string) (l : list value) (i : nat) :
  findIndex toUpperCase sizeKey l i = inr None →
  forallb (other_size toUpperCase sizeKey) l = true.
Proof.
  revert i. induction l as [|item l IH]; intros i; [done|]. simpl.
  destruct (size_matches toUpperCase sizeKey item) as [e|[|]] eqn:Hm; try done.
  intros Hl. rewrite (size_matches_false _ _ Hm). simpl. by eapply IH.
Qed.

Lemma findIndex_Some_lookup (sizeKey : string) (l : list value) (i0 i : nat) :
  findIndex toUpperCase sizeKey l i0 = inr (Some i) →
  (i0 <= i)%nat ∧ is_Some (l !! (i - i0)%nat).
Proof.
  revert i0. induction l as [|item l IH]; intros i0; [done|]. simpl.
  destruct (size_matches toUpperCase sizeKey item) as [e|[|]]; try done.
  - intros [= <-]. rewrite Nat.sub_diag. split; [lia|by eexists].
  - intros [Hle Hl]%IH. split; [lia|].
    replace (i - i0)%nat with (S (i - S i0)) by lia. done.
Qed.

Lemma decrement_entry_applied (target : value) (q : value) (rebuild : value → value) :
  applied (decrement_entry StringToNumber ObjectToNumber target q rebuild).
Proof.
  unfold decrement_entry.
  destruct (get target "quantity"); [done|].
  destruct (minus _ _ _ _); [done|].
  destruct (get _ "quantity"); [done|]. simpl.
  by destruct (below_zero _ _ _) as [e|[|]].
Qed.

Lemma decrement_number_applied (n : num) (q : value) :
  applied (decrement_number StringToNumber ObjectToNumber n q).
Proof.
  unfold decrement_number. destruct (minus _ _ _ _); [done|]. by destruct (lt0 _).
Qed.

Lemma applied_not_generic (p : product) (b : body) :
  applied (run_switch StringToNumber ObjectToNumber toUpperCase p b)
  ∨ run_switch StringToNumber ObjectToNumber toUpperCase p b
    = inr (Return 400 "Se requieren talla y color") →
  Legacy.update_stock StringToNumber ObjectToNumber toUpperCase (Some p) (Some b)
  ≠ Outcome 400 (Send "No se pudo actualizar el stock") None.
Proof.
  unfold Legacy.update_stock.
  destruct (run_switch _ _ _ p b) as [e|[st text|[|] st' assigned]]; simpl.
  - by intros _.
  - intros [[= -> ->]|[= -> ->]]; discriminate.
  - by intros _.
  - by intros [|].
Qed.

Lemma case_gloves_entry (st : value) (b : body) :
  match st with
  | VArr l _ => forallb (other_size toUpperCase (sizeKey_of toUpperCase (size b))) l
  | VObj fs => negb (truthy (own (sizeKey_of toUpperCase (size b)) fs))
  | VUndefined | VBool _ | VStr _ => true
  | VNull | VNum _ => false
  end = false →
  applied (case_gloves StringToNumber ObjectToNumber toUpperCase st b).
Proof.
  unfold case_gloves. destruct st as [| | |n|s|l named|fs]; simpl; try done.
  - intros _. apply decrement_number_applied.
  - intros Hl.
    destruct (findIndex toUpperCase _ l 0) as [e|[i|]] eqn:Hf; [done| |].
    + apply findIndex_Some_lookup in Hf as [_ [item Hitem]].
      rewrite Nat.sub_0_r in Hitem. rewrite Hitem.
      apply decrement_entry_applied.
    + apply findIndex_None_inv in Hf. congruence.
  - rewrite negb_false_iff. intros ->.
    destruct (if is_object _ then _ else _) as [e|cur]; [done|].
    destruct (minus _ _ _ _); [done|].
    simpl. by destruct (lt0 _).
Qed.

(** The reply [No se pudo actualizar el stock] without a save is sent exactly
    when the stock has no entry for the request. *)
Lemma update_stock_generic_iff (p : product) (b : body) :
  Legacy.update_stock StringToNumber ObjectToNumber toUpperCase (Some p) (Some b)
  = Outcome 400 (Send "No se pudo actualizar el stock") None
  ↔ no_entry toUpperCase p b = true.
Proof.
  split.
  - destruct (no_entry toUpperCase p b) eqn:Hno; [done|]. intros Hgen. exfalso.
    revert Hgen. apply applied_not_generic.
    unfold no_entry, run_switch in *. destruct p as [[] st]; simpl in *.
    + unfold case_clothing.
      destruct (size b) as [s|]; [|by right].
      destruct (color b) as [c|]; [|by right].
      destruct (String.eqb s "") eqn:Hs; [by right|].
      destruct (String.eqb c "") eqn:Hc; [by right|]. simpl in *.
      destruct (props st) as [fs|] eqn:Hp.
      * rewrite (get_props _ _ _ Hp). apply negb_false_iff in Hno. rewrite Hno.
        left. apply decrement_entry_applied.
      * left. by destruct st.
    + left. unfold case_accessory.
      destruct st as [| | |n|s|l named|fs]; simpl in *; try done;
        try apply decrement_number_applied;
        apply negb_false_iff in Hno; rewrite Hno; apply decrement_entry_applied.
    + left. by apply case_gloves_entry.
    + left. by apply case_gloves_entry.
  - intros Hno. unfold no_entry, Legacy.update_stock, run_switch in *.
    destruct p as [[] st]; simpl in *.
    + unfold case_clothing.
      destruct (size b) as [s|], (color b) as [c|]; try done.
      destruct (props st) as [fs|] eqn:Hp; [|done].
      rewrite !andb_true_iff, !negb_true_iff in Hno.
      destruct Hno as [[-> ->] Hfalsy]. simpl.
      by rewrite (get_props _ _ _ Hp), Hfalsy.
    + unfold case_accessory.
      destruct st; simpl in *; try done;
        apply negb_true_iff in Hno; by rewrite Hno.
    + unfold case_gloves. destruct st; simpl in *; try done.
      * by rewrite findIndex_none.
      * apply negb_true_iff in Hno. by rewrite Hno.
    + unfold case_gloves. destruct st; simpl in *; try done.
      * by rewrite findIndex_none.
      * apply negb_true_iff in Hno. by rewrite Hno.
Qed.

(** C9. An existing product whose stock encoding has no entry for what the
    request names (clothing without the [size-color] key, an accessory that
    is neither a number nor has a [default], a gloves or kneepads array or
    object without the size, or a stock of another shape): the handler never
    calls [product.save()] and answers with status 400 and the generic text
    [No se pudo actualizar el stock]. *)
Theorem update_stock_no_entry (p : product) (b : body) :
  no_entry toUpperCase p b = true →
  Legacy.update_stock StringToNumber ObjectToNumber toUpperCase (Some p) (Some b)
  = Outcome 400 (Send "No se pudo actualizar el stock") None.
Proof. apply update_stock_generic_iff. Qed.

End LegacyFacts.

(** A clothing product without the requested [M-red] and a gloves array
    without the requested size [m]. *)
Lemma update_stock_no_entry_witness :
  let none := λ _ : string, nan in
  let none' := λ _ : Legacy.value, inr nan : Js.error + Legacy.num in
  let shirt := Legacy.Product Legacy.clothing
    (Legacy.VObj [("L-blue", Legacy.VObj [("quantity", Legacy.VNum 4)])]) in
  let pair := Legacy.Product Legacy.gloves
    (Legacy.VArr [Legacy.VObj [("size", Legacy.VStr "l");
                               ("quantity", Legacy.VNum 2)]] []) in
  Legacy.no_entry Legacy.upper shirt
    (Legacy.Body (Some "M") (Some "red") (Legacy.VNum 1)) = true
  ∧ Legacy.update_stock none none' Legacy.upper (Some shirt)
      (Some (Legacy.Body (Some "M") (Some "red") (Legacy.VNum 1)))
    = Legacy.Outcome 400 (Legacy.Send "No se pudo actualizar el stock") None
  ∧ Legacy.update_stock none none' Legacy.upper (Some pair)
      (Some (Legacy.Body (Some "m") None (Legacy.VNum 1)))
    = Legacy.Outcome 400 (Legacy.Send "No se pudo actualizar el stock") None.
Proof.
  split; [reflexivity|]. split.
  - apply update_stock_no_entry. reflexivity.
  - apply update_stock_no_entry. reflexivity.
Defined.

(** ** Further properties of the inventory routes *)

Section RoutesMore.
Import StockRoutes.

(** *** Records are neither created, deleted nor re-keyed *)

Lemma update_loop_keys (es : list entry) (acc : list update) (s : db) :
  Stock.key_of <$> coll (update_loop es acc s).2 = Stock.key_of <$> coll s.
Proof.
  revert acc s. induction es as [|[|it] es IH]; intros acc s; [done..|].
  destruct (update_line_cases it (coll s)) as [Hun|(d & c' & Hf)].
  - by rewrite update_loop_null.
  - rewrite (update_loop_step _ _ _ _ _ _ Hf), IH. simpl.
    pose proof (findOneAndUpdate_keys
      (Stock.Filter (id it) (size it) (color it) (Some (quantity it)))
      (- quantity it) (coll s)) as Hk.
    by rewrite Hf in Hk.
Qed.

Lemma serve_keys (scope : list string) (r : request) (c : Stock.collection) :
  Stock.key_of <$> (serve scope r c).1.2 = Stock.key_of <$> c.
Proof.
  destruct r as [b|b]; simpl; [by rewrite check_stock_readonly|].
  unfold update_stock_in. destruct (bound scope "mongoose"); [|done].
  destruct b as [|[|es]]; [done..|]. rewrite update_stock_try_array.
  pose proof (update_loop_keys es [] (Db c [EvStartSession; EvStartTransaction])) as Hk.
  by destruct (update_loop es [] _) as [[e|ups] s'].
Qed.

(** X1. Whatever the module binds and whatever requests the two routes
    serve, in any number and order, the collection keeps its records: the
    composite keys afterwards are the keys before, in the same places. No
    request creates, deletes or re-keys a record, and the unique index
    survives. *)
Theorem routes_keep_keys (scope : list string) (rs : list request)
    (c : Stock.collection) :
  Stock.key_of <$> serve_all scope rs c = Stock.key_of <$> c
  ∧ (Stock.unique_index c → Stock.unique_index (serve_all scope rs c)).
Proof.
  assert (Stock.key_of <$> serve_all scope rs c = Stock.key_of <$> c) as Hk.
  { revert c. unfold serve_all. induction rs as [|r rs IH]; intros c; [done|].
    simpl. by rewrite IH, serve_keys. }
  split; [done|]. unfold Stock.unique_index. by rewrite Hk.
Qed.

(** X2. The stock query changes nothing, well-formed request or not: after
    it every request gets the reply it would have got before it, the same
    query included. *)
Theorem check_stock_repeatable (scope : list string) (b : req_body) (r : request)
    (c : Stock.collection) :
  (check_stock b c).1.2 = c
  ∧ serve scope r (check_stock b c).1.2 = serve scope r c
  ∧ check_stock b (check_stock b c).1.2 = check_stock b c.
Proof. by rewrite check_stock_readonly. Qed.

(** *** The session *)

Lemma update_loop_log (es : list entry) (acc : list update) (s : db) :
  ∃ ops, log (update_loop es acc s).2 = log s ++ ops ∧ Forall is_update ops.
Proof.
  revert acc s. induction es as [|[|it] es IH]; intros acc s.
  - exists []. by rewrite app_nil_r.
  - exists []. by rewrite app_nil_r.
  - destruct (update_line_cases it (coll s)) as [Hun|(d & c' & Hf)].
    + rewrite update_loop_null by done. eexists [_]. split; [done|].
      by apply Forall_singleton.
    + rewrite (update_loop_step _ _ _ _ _ _ Hf).
      destruct (IH (acc ++ [Update (id it) (size it) (color it) (Stock.quantity d)])
                  (Db c' (log s ++ [EvFindOneAndUpdate (key_of_item it) (quantity it)
                                      (- quantity it)]))) as (ops & -> & Hops).
      eexists (_ :: ops). simpl. rewrite <- app_assoc. split; [done|].
      by apply Forall_cons.
Qed.

(** X3. Where [mongoose] is bound, every call of the reservation handler,
    whatever the request, opens one session and one transaction, issues only
    guarded updates inside it, ends the transaction exactly once, by a commit
    when it reports success and by an abort otherwise, and ends the session
    last. *)
Theorem update_stock_in_session (scope : list string) (b : req_body)
    (c : Stock.collection) :
  bound scope "mongoose" = true →
  ∃ ops,
    Forall is_update ops
    ∧ (update_stock_in scope b c).2
      = [EvStartSession; EvStartTransaction] ++ ops
        ++ [if success (update_stock_in scope b c).1.1 then EvCommit else EvAbort;
            EvEndSession].
Proof.
  intros Hb. unfold update_stock_in. rewrite Hb.
  assert (∃ ops, log (update_stock_try b (Db c [EvStartSession; EvStartTransaction])).2
                 = [EvStartSession; EvStartTransaction] ++ ops
                 ∧ Forall is_update ops) as (ops & Hlog & Hops).
  { destruct b as [|[|es]].
    - exists []. split; [done|]. apply Forall_nil_2.
    - exists []. split; [done|]. apply Forall_nil_2.
    - rewrite update_stock_try_array. apply update_loop_log. }
  exists ops. split; [done|].
  destruct (update_stock_try b _) as [[e|ups] s']; simpl in *; by rewrite Hlog.
Qed.

Lemma update_stock_in_session_witness :
  bound ("mongoose" :: module_scope) "mongoose" = true
  ∧ ∃ ops,
      Forall is_update ops
      ∧ (update_stock_in ("mongoose" :: module_scope)
           (lines [Item "A" "M" "red" 1; Item "B" "L" "blue" 4])
           [Stock.Doc "A" "M" "red" 5; Stock.Doc "B" "L" "blue" 1]).2
        = [EvStartSession; EvStartTransaction] ++ ops ++ [EvAbort; EvEndSession].
Proof.
  split; [reflexivity|].
  exact (update_stock_in_session ("mongoose" :: module_scope)
           (lines [Item "A" "M" "red" 1; Item "B" "L" "blue" 4])
           [Stock.Doc "A" "M" "red" 5; Stock.Doc "B" "L" "blue" 1] eq_refl).
Defined.

(** *** What a successful reservation reports and takes *)

Lemma total_insert_inc (c : Stock.collection) (i : nat) (d : Stock.doc) (delta : Z) :
  c !! i = Some d → total (<[i := Stock.inc delta d]> c) = total c + delta.
Proof.
  revert i. induction c as [|x c IH]; intros [|i] Hi; try done.
  - injection Hi as ->. unfold total. simpl. lia.
  - simpl in Hi. apply IH in Hi. unfold total in *. simpl. lia.
Qed.

Lemma findOneAndUpdate_applied (it : item) (c c' : Stock.collection) (d : Stock.doc) :
  Stock.findOneAndUpdate
    (Stock.Filter (id it) (size it) (color it) (Some (quantity it)))
    (- quantity it) c = (Some d, c') →
  0 <= Stock.quantity d ∧ total c' = total c - quantity it.
Proof.
  unfold Stock.findOneAndUpdate.
  destruct (list_find _ c) as [[i d0]|] eqn:Hf; [|done].
  intros [= <- <-].
  apply list_find_Some in Hf as (Hi & [_ Hq]%matches_gte & _).
  split; [simpl; lia|]. rewrite (total_insert_inc _ _ _ _ Hi). lia.
Qed.

Lemma update_loop_success (its : list item) (acc ups : list update) (s s' : db) :
  update_loop (Line <$> its) acc s = (inr ups, s') →
  ∃ new, ups = acc ++ new
         ∧ Forall2 (λ u it, mirrors u it ∧ 0 <= newStock u) new its
         ∧ total (coll s') = total (coll s) - amount_sum its.
Proof.
  revert acc s. induction its as [|it its IH]; intros acc s Hl.
  - injection Hl as <- <-. exists []. rewrite app_nil_r.
    split_and!; [done|constructor|simpl; lia].
  - rewrite fmap_cons in Hl.
    destruct (update_line_cases it (coll s)) as [Hun|(d & c' & Hf)].
    + by rewrite update_loop_null in Hl.
    + rewrite (update_loop_step _ _ _ _ _ _ Hf) in Hl.
      apply IH in Hl as (new & -> & Hnew & Htot). simpl in Htot.
      apply findOneAndUpdate_applied in Hf as [Hd Hc'].
      eexists (_ :: new). rewrite <- app_assoc. split_and!; [done| |].
      * by constructor.
      * simpl. lia.
Qed.

Lemma update_stock_in_success (scope : list string) (its : list item)
    (c : Stock.collection) :
  success (update_stock_in scope (lines its) c).1.1 = true →
  ∃ ups,
    (update_stock_in scope (lines its) c).1.1 = Responded 200 (UpdateOk ups)
    ∧ Forall2 (λ u it, mirrors u it ∧ 0 <= newStock u) ups its
    ∧ total (update_stock_in scope (lines its) c).1.2 = total c - amount_sum its.
Proof.
  unfold update_stock_in, lines. destruct (bound scope "mongoose"); [|done].
  rewrite update_stock_try_array.
  destruct (update_loop _ _ _) as [[e|ups] s'] eqn:Hl; [done|]. intros _.
  apply update_loop_success in Hl as (new & -> & Hnew & Htot).
  by exists new.
Qed.

(** X4. A reservation that reports success reports one update per line, in
    the order of the lines, each repeating the id, size and color of its
    line, and no reported new stock is negative, whatever the collection held
    and whether or not lines share a key. *)
Theorem success_reply_mirrors_lines (scope : list string) (its : list item)
    (c : Stock.collection) :
  success (update_stock_in scope (lines its) c).1.1 = true →
  ∃ ups,
    (update_stock_in scope (lines its) c).1.1 = Responded 200 (UpdateOk ups)
    ∧ length ups = length its
    ∧ Forall2 (λ u it, mirrors u it ∧ 0 <= newStock u) ups its.
Proof.
  intros (ups & Hr & Hups & _)%update_stock_in_success.
  exists ups. split_and!; [done| |done]. by eapply Forall2_length.
Qed.

Lemma success_reply_mirrors_lines_witness :
  let scope := "mongoose" :: module_scope in
  let its := [Item "A" "M" "red" 2; Item "A" "M" "red" 3] in
  success (update_stock_in scope (lines its) [Stock.Doc "A" "M" "red" 5]).1.1 = true
  ∧ ∃ ups,
      (update_stock_in scope (lines its) [Stock.Doc "A" "M" "red" 5]).1.1
      = Responded 200 (UpdateOk ups)
      ∧ length ups = length its
      ∧ Forall2 (λ u it, mirrors u it ∧ 0 <= newStock u) ups its.
Proof.
  split; [reflexivity|].
  exact (success_reply_mirrors_lines ("mongoose" :: module_scope)
           [Item "A" "M" "red" 2; Item "A" "M" "red" 3]
           [Stock.Doc "A" "M" "red" 5] eq_refl).
Defined.

(** X5. A reservation that reports success takes from the collection, in
    all, exactly the sum of the amounts of its lines (a negative amount
    counting as an addition); one that does not report success takes
    nothing. *)
Theorem reservation_conserves (scope : list string) (its : list item)
    (c : Stock.collection) :
  total (update_stock_in scope (lines its) c).1.2
  = if success (update_stock_in scope (lines its) c).1.1
    then total c - amount_sum its
    else total c.
Proof.
  destruct (success _) eqn:Hs.
  - by apply update_stock_in_success in Hs as (ups & _ & _ & Htot).
  - by rewrite update_stock_in_failure_restores.
Qed.

(** *** What a request asks of each key *)

Lemma inc_inc (a b : Z) (d : Stock.doc) :
  Stock.inc a (Stock.inc b d) = Stock.inc (b + a) d.
Proof. unfold Stock.inc. simpl. f_equal. lia. Qed.

Lemma inc_0 (d : Stock.doc) : Stock.inc (- 0) d = d.
Proof. destruct d. unfold Stock.inc. simpl. f_equal. lia. Qed.

Lemma unique_same_key (c : Stock.collection) (x y : Stock.doc) :
  Stock.unique_index c → x ∈ c → y ∈ c → Stock.key_of x = Stock.key_of y → x = y.
Proof.
  intros Hu [i Hi]%list_elem_of_lookup [j Hj]%list_elem_of_lookup Hk.
  assert (i = j) as -> by (by eapply unique_index_lookup).
  congruence.
Qed.

(** Under the unique index the guarded update is a map over the collection:
    it changes the record of its key and no other. *)
Lemma findOneAndUpdate_as_map (it : item) (c c' : Stock.collection) (d : Stock.doc) :
  Stock.unique_index c →
  Stock.findOneAndUpdate
    (Stock.Filter (id it) (size it) (color it) (Some (quantity it)))
    (- quantity it) c = (Some d, c') →
  c' = (λ x, if decide (Stock.key_of x = key_of_item it)
             then Stock.inc (- quantity it) x else x) <$> c
  ∧ ∃ d0, d0 ∈ c ∧ Stock.key_of d0 = key_of_item it ∧ quantity it <= Stock.quantity d0.
Proof.
  intros Hu. unfold Stock.findOneAndUpdate.
  destruct (list_find _ c) as [[i d0]|] eqn:Hf; [|done].
  intros [= _ <-].
  apply list_find_Some in Hf as (Hi & [Hk Hq]%matches_gte & _).
  split; [|exists d0; split_and!; [by eapply list_elem_of_lookup_2|done..]].
  apply list_eq. intros j. rewrite list_lookup_fmap.
  destruct (decide (i = j)) as [<-|Hne].
  - rewrite list_lookup_insert_eq by (by eapply lookup_lt_Some).
    rewrite Hi. simpl. by rewrite decide_True.
  - rewrite list_lookup_insert_ne by done.
    destruct (c !! j) as [y|] eqn:Hj; [|done]. simpl.
    rewrite decide_False; [done|]. intros Hy. apply Hne.
    eapply unique_index_lookup; [done..|]. unfold key_of_item in Hy. congruence.
Qed.

Lemma demand_cons (it : item) (its : list item) (k : Stock.key) :
  demand (it :: its) k
  = (if decide (key_of_item it = k) then quantity it else 0) + demand its k.
Proof. unfold demand. simpl. case_decide; lia. Qed.

Lemma demand_nonneg (its : list item) (k : Stock.key) :
  (∀ it, it ∈ its → 0 <= quantity it) → 0 <= demand its k.
Proof.
  induction its as [|it its IH]; intros Hpos; [done|].
  rewrite demand_cons.
  assert (0 <= quantity it) by (apply Hpos; by left).
  assert (0 <= demand its k) by (apply IH; intros ? ?; apply Hpos; by right).
  case_decide; lia.
Qed.

Lemma demand_absent (its : list item) (k : Stock.key) :
  (∀ it, it ∈ its → key_of_item it ≠ k) → demand its k = 0.
Proof.
  induction its as [|it its IH]; intros Hk; [done|].
  rewrite demand_cons, IH by (intros ? ?; apply Hk; by right).
  rewrite decide_False; [done|]. apply Hk. by left.
Qed.

Lemma demand_perm (its its' : list item) (k : Stock.key) :
  its ≡ₚ its' → demand its k = demand its' k.
Proof.
  induction 1 as [|x l l' _ IH|x y l|l l' l'' _ IH1 _ IH2].
  - done.
  - by rewrite !demand_cons, IH.
  - rewrite !demand_cons. lia.
  - congruence.
Qed.

Lemma covered_perm (its its' : list item) (c : Stock.collection) :
  its ≡ₚ its' → covered its c → covered its' c.
Proof.
  intros Hp Hc it Hin. rewrite <- Hp in Hin.
  destruct (Hc it Hin) as (d & ? & ? & ?). exists d.
  by rewrite <- (demand_perm _ _ _ Hp).
Qed.

Lemma draw_perm (its its' : list item) (c : Stock.collection) :
  its ≡ₚ its' → draw its c = draw its' c.
Proof.
  intros Hp. unfold draw. apply list_fmap_ext. intros i d _.
  by rewrite (demand_perm _ _ _ Hp).
Qed.

Lemma draw_step (it : item) (its : list item) (c : Stock.collection) :
  draw its ((λ x, if decide (Stock.key_of x = key_of_item it)
                  then Stock.inc (- quantity it) x else x) <$> c)
  = draw (it :: its) c.
Proof.
  unfold draw. rewrite <- list_fmap_compose. apply list_fmap_ext.
  intros i x _. unfold compose. cbv beta. rewrite demand_cons.
  destruct (decide (Stock.key_of x = key_of_item it)) as [Hk|Hk].
  - rewrite key_of_inc, inc_inc. rewrite decide_True by done. f_equal. lia.
  - rewrite decide_False by done. f_equal.
Qed.

(** The loop succeeds exactly on the requests the collection covers, and then
    leaves every record reduced by the demand on its key. *)
Lemma update_loop_covered (its : list item) (acc : list update) (s : db) :
  Stock.unique_index (coll s) →
  (∀ it, it ∈ its → 0 <= quantity it) →
  (covered its (coll s) →
   ∃ ups s', update_loop (Line <$> its) acc s = (inr ups, s')
             ∧ coll s' = draw its (coll s))
  ∧ (∀ ups s', update_loop (Line <$> its) acc s = (inr ups, s') →
               covered its (coll s)).
Proof.
  revert acc s. induction its as [|it its IH]; intros acc s Hu Hpos.
  { split.
    - intros _. exists acc, s. split; [done|]. unfold draw.
      rewrite <- (list_fmap_id (coll s)) at 1. apply list_fmap_ext.
      intros i d _. simpl. by rewrite inc_0.
    - intros ups s' _ it Hin. by apply elem_of_nil in Hin. }
  assert (0 <= quantity it) as Ha by (apply Hpos; by left).
  assert (∀ it', it' ∈ its → 0 <= quantity it') as Hpos'
    by (intros ? ?; apply Hpos; by right).
  rewrite fmap_cons.
  destruct (update_line_cases it (coll s)) as [Hun|(d & c' & Hf)].
  { rewrite update_loop_null by done. split; [|done].
    intros Hc. exfalso.
    destruct (Hc it) as (x & Hx & Hk & Hq); [by left|].
    rewrite demand_cons, decide_True in Hq by done.
    pose proof (demand_nonneg its (key_of_item it) Hpos').
    specialize (Hun x Hx Hk). lia. }
  rewrite (update_loop_step _ _ _ _ _ _ Hf).
  pose proof (findOneAndUpdate_unique
    (Stock.Filter (id it) (size it) (color it) (Some (quantity it)))
    (- quantity it) (coll s) Hu) as Hu'. rewrite Hf in Hu'. simpl in Hu'.
  destruct (findOneAndUpdate_as_map _ _ _ _ Hu Hf) as (Hc' & d0 & Hd0 & Hk0 & Hq0).
  set (f := λ x, if decide (Stock.key_of x = key_of_item it)
                 then Stock.inc (- quantity it) x else x) in *.
  assert (∀ x, Stock.key_of (f x) = Stock.key_of x) as Hfk
    by (intros x; unfold f; by case_decide).
  destruct (IH (acc ++ [Update (id it) (size it) (color it) (Stock.quantity d)])
              (Db c' (log s ++ [EvFindOneAndUpdate (key_of_item it) (quantity it)
                                  (- quantity it)])) Hu' Hpos') as [IHa IHb].
  simpl in IHa, IHb. split.
  - intros Hc. destruct IHa as (ups & s' & Hl & Hs').
    + intros it' Hin'. destruct (Hc it') as (x & Hx & Hk & Hq); [by right|].
      exists (f x). rewrite Hc'. split_and!.
      * apply list_elem_of_fmap. by exists x.
      * by rewrite Hfk.
      * rewrite demand_cons in Hq. unfold f.
        destruct (decide (key_of_item it = key_of_item it')) as [Heq|Hne].
        -- rewrite decide_True by congruence. simpl. lia.
        -- rewrite decide_False by congruence. lia.
    + exists ups, s'. split; [done|]. rewrite Hs', Hc'. apply draw_step.
  - intros ups s' Hl. specialize (IHb ups s' Hl).
    assert (∀ it', it' ∈ its → key_of_item it' = key_of_item it →
              quantity it + demand its (key_of_item it) <= Stock.quantity d0) as Hsame.
    { intros it' Hin' Heq. destruct (IHb it' Hin') as (y & Hy & Hky & Hqy).
      rewrite Hc' in Hy. apply list_elem_of_fmap in Hy as (x & -> & Hx).
      rewrite Hfk in Hky.
      assert (x = d0) as ->
        by (apply (unique_same_key (coll s)); [done..|congruence]).
      unfold f in Hqy. rewrite decide_True in Hqy by done. simpl in Hqy.
      rewrite Heq in Hqy. lia. }
    intros it' [->|Hin']%elem_of_cons.
    + exists d0. split_and!; [done..|].
      rewrite demand_cons, decide_True by done.
      destruct (decide (key_of_item it ∈ key_of_item <$> its)) as [Hin|Hnot].
      * apply list_elem_of_fmap in Hin as (it' & Heq & Hin'). by eapply Hsame.
      * rewrite demand_absent; [lia|]. intros it' Hin' Heq. apply Hnot.
        apply list_elem_of_fmap. by exists it'.
    + destruct (decide (key_of_item it = key_of_item it')) as [Heq|Hne].
      * exists d0. split_and!; [done|congruence|].
        rewrite demand_cons, decide_True by done. rewrite <- Heq.
        by eapply Hsame.
      * destruct (IHb it' Hin') as (y & Hy & Hky & Hqy).
        rewrite Hc' in Hy. apply list_elem_of_fmap in Hy as (x & -> & Hx).
        rewrite Hfk in Hky. exists x. split_and!; [done..|].
        rewrite demand_cons, decide_False by done.
        unfold f in Hqy. rewrite decide_False in Hqy by congruence. lia.
Qed.

Lemma update_stock_in_covered (scope : list string) (its : list item)
    (c : Stock.collection) :
  bound scope "mongoose" = true →
  Stock.unique_index c →
  (∀ it, it ∈ its → 0 <= quantity it) →
  (success (update_stock_in scope (lines its) c).1.1 = true ↔ covered its c)
  ∧ (update_stock_in scope (lines its) c).1.2
    = if success (update_stock_in scope (lines its) c).1.1 then draw its c else c.
Proof.
  intros Hb Hu Hpos. unfold lines. rewrite update_stock_in_bound by done.
  destruct (update_loop_covered its [] (Db c [EvStartSession; EvStartTransaction])
              Hu Hpos) as [Ha Hb'].
  destruct (update_loop _ _ _) as [[e|ups] s'] eqn:Hl; simpl.
  - split; [|done]. split; [done|]. intros Hc.
    by destruct (Ha Hc) as (? & ? & ? & _).
  - split.
    + split; [|done]. intros _. by eapply Hb'.
    + destruct Ha as (ups' & s'' & Heq & Hs''); [by eapply Hb'|].
      by injection Heq as <- <-.
Qed.

(** X6. Where [mongoose] is bound, for a collection under the unique index
    and lines whose amounts are not negative: the reservation succeeds
    exactly when every line names a record that holds what all the lines of
    its key ask for together, and then every record is left with its quantity
    minus the demand on its key; otherwise the collection is left as it
    was. *)
Theorem reservation_by_demand (scope : list string) (its : list item)
    (c : Stock.collection) :
  bound scope "mongoose" = true →
  Stock.unique_index c →
  (∀ it, it ∈ its → 0 <= quantity it) →
  (success (update_stock_in scope (lines its) c).1.1 = true ↔ covered its c)
  ∧ (update_stock_in scope (lines its) c).1.2
    = if success (update_stock_in scope (lines its) c).1.1 then draw its c else c.
Proof. apply update_stock_in_covered. Qed.

(** X7. Under the same conditions the order of the lines decides nothing but
    the line that is reported: two requests with the same lines in different
    orders both succeed or both fail, and leave the same collection. *)
Theorem reservation_order_irrelevant (scope : list string) (its its' : list item)
    (c : Stock.collection) :
  bound scope "mongoose" = true →
  Stock.unique_index c →
  (∀ it, it ∈ its → 0 <= quantity it) →
  its ≡ₚ its' →
  success (update_stock_in scope (lines its) c).1.1
  = success (update_stock_in scope (lines its') c).1.1
  ∧ (update_stock_in scope (lines its) c).1.2
    = (update_stock_in scope (lines its') c).1.2.
Proof.
  intros Hb Hu Hpos Hp.
  assert (∀ it, it ∈ its' → 0 <= quantity it) as Hpos'
    by (intros it Hin; apply Hpos; by rewrite Hp).
  destruct (update_stock_in_covered scope its c Hb Hu Hpos) as [Hiff Hc].
  destruct (update_stock_in_covered scope its' c Hb Hu Hpos') as [Hiff' Hc'].
  assert (success (update_stock_in scope (lines its) c).1.1
          = success (update_stock_in scope (lines its') c).1.1) as Hs.
  { destruct (success (update_stock_in scope (lines its) c).1.1) eqn:H1,
             (success (update_stock_in scope (lines its') c).1.1) eqn:H2; try done.
    - assert (false = true); [|done].
      apply Hiff'. apply (covered_perm its its'); [done|]. by apply Hiff.
    - assert (false = true); [|done].
      apply Hiff. apply (covered_perm its' its); [done|]. by apply Hiff'. }
  split; [done|]. rewrite Hc, Hc', <- Hs.
  destruct (success _); [|done]. by apply draw_perm.
Qed.

Lemma reservation_by_demand_witness :
  let scope := "mongoose" :: module_scope in
  let its := [Item "A" "M" "red" 2; Item "A" "M" "red" 3] in
  let c := [Stock.Doc "A" "M" "red" 5; Stock.Doc "B" "L" "blue" 1] in
  bound scope "mongoose" = true
  ∧ Stock.unique_index c
  ∧ (∀ it, it ∈ its → 0 <= quantity it)
  ∧ (update_stock_in scope (lines its) c).1.2
    = if success (update_stock_in scope (lines its) c).1.1 then draw its c else c.
Proof.
  assert (Stock.unique_index [Stock.Doc "A" "M" "red" 5; Stock.Doc "B" "L" "blue" 1])
    as Hu.
  { unfold Stock.unique_index. apply (bool_decide_unpack _). vm_compute. exact I. }
  assert (∀ it, it ∈ [Item "A" "M" "red" 2; Item "A" "M" "red" 3] → 0 <= quantity it)
    as Hpos.
  { intros it [->|[->|[]%elem_of_nil]%elem_of_cons]%elem_of_cons; simpl; lia. }
  split; [reflexivity|]. split; [exact Hu|]. split; [exact Hpos|].
  exact (proj2 (reservation_by_demand ("mongoose" :: module_scope) _ _ eq_refl Hu Hpos)).
Defined.

Lemma reservation_order_irrelevant_witness :
  let scope := "mongoose" :: module_scope in
  let its := [Item "A" "M" "red" 2; Item "B" "L" "blue" 4] in
  let its' := [Item "B" "L" "blue" 4; Item "A" "M" "red" 2] in
  let c := [Stock.Doc "A" "M" "red" 5; Stock.Doc "B" "L" "blue" 1] in
  bound scope "mongoose" = true
  ∧ Stock.unique_index c
  ∧ (∀ it, it ∈ its → 0 <= quantity it)
  ∧ its ≡ₚ its'
  ∧ success (update_stock_in scope (lines its) c).1.1
    = success (update_stock_in scope (lines its') c).1.1
  ∧ (update_stock_in scope (lines its) c).1.2
    = (update_stock_in scope (lines its') c).1.2.
Proof.
  assert (Stock.unique_index [Stock.Doc "A" "M" "red" 5; Stock.Doc "B" "L" "blue" 1])
    as Hu.
  { unfold Stock.unique_index. apply (bool_decide_unpack _). vm_compute. exact I. }
  assert (∀ it, it ∈ [Item "A" "M" "red" 2; Item "B" "L" "blue" 4] → 0 <= quantity it)
    as Hpos.
  { intros it [->|[->|[]%elem_of_nil]%elem_of_cons]%elem_of_cons; simpl; lia. }
  assert ([Item "A" "M" "red" 2; Item "B" "L" "blue" 4]
          ≡ₚ [Item "B" "L" "blue" 4; Item "A" "M" "red" 2]) as Hp
    by apply Permutation_swap.
  split; [reflexivity|]. split; [exact Hu|]. split; [exact Hpos|]. split; [exact Hp|].
  exact (reservation_order_irrelevant ("mongoose" :: module_scope) _ _ _
           eq_refl Hu Hpos Hp).
Defined.

(** *** The query as advice *)

Lemma check_stock_on_lines (its : list item) (c : Stock.collection) :
  check_stock (lines its) c
  = (Responded 200 (CheckOk (result_of c <$> its)), c, EvFindOne ∘ key_of_item <$> its).
Proof.
  unfold check_stock, check_stock_try, lines. unfold bind at 1. simpl.
  unfold bind at 1. simpl. by rewrite check_loop_lines.
Qed.

(** X8. Where [mongoose] is bound and the collection respects the unique
    index, the stock query foretells the reservation of a single line with a
    positive amount made right after it: the line is reserved exactly when
    the reported [available] is at least the [requested] amount, the new
    stock being their difference, and is refused with the line's report
    otherwise, a missing record being refused through the [available] of
    0. *)
Theorem query_foretells_reservation (scope : list string) (it : item)
    (c : Stock.collection) :
  bound scope "mongoose" = true →
  Stock.unique_index c →
  0 < quantity it →
  ∃ r,
    (check_stock (lines [it]) c).1.1 = Responded 200 (CheckOk [r])
    ∧ requested r = quantity it
    ∧ (update_stock_in scope (lines [it]) (check_stock (lines [it]) c).1.2).1.1
      = if requested r <=? available r
        then Responded 200
               (UpdateOk [Update (id it) (size it) (color it)
                            (available r - requested r)])
        else Responded 400 (Failure (insufficient it)).
Proof.
  intros Hb Hu Hpos. exists (result_of c it).
  rewrite check_stock_on_lines. simpl. split_and!; [done..|].
  destruct (Stock.findOne (key_filter it) c) as [d|] eqn:Hd.
  - destruct (Z.leb_spec (quantity it) (Stock.quantity d)) as [Hle|Hlt].
    + rewrite update_stock_in_satisfiable; try done.
      * simpl. unfold update_of. by rewrite Hd.
      * apply NoDup_singleton.
      * intros it' ->%list_elem_of_singleton. by exists d.
    + rewrite update_stock_in_single_rejected, Hb; [done|].
      intros d' Hd' Hk. apply findOne_Some in Hd as [Hin Hkd].
      unfold key_of_item in Hk.
      assert (d' = d) as -> by (apply (unique_same_key c); [done..|congruence]).
      done.
  - destruct (Z.leb_spec (quantity it) 0) as [Hle|Hlt]; [lia|].
    rewrite update_stock_in_single_rejected, Hb; [done|].
    intros d' Hd' Hk. exfalso.
    by apply (proj1 (findOne_None _ _ _ _) Hd d' Hd').
Qed.

Lemma query_foretells_reservation_witness :
  let scope := "mongoose" :: module_scope in
  let it := Item "A" "M" "red" 3 in
  let c := [Stock.Doc "A" "M" "red" 5] in
  bound scope "mongoose" = true
  ∧ Stock.unique_index c
  ∧ 0 < quantity it
  ∧ ∃ r,
      (check_stock (lines [it]) c).1.1 = Responded 200 (CheckOk [r])
      ∧ requested r = quantity it
      ∧ (update_stock_in scope (lines [it]) (check_stock (lines [it]) c).1.2).1.1
        = if requested r <=? available r
          then Responded 200
                 (UpdateOk [Update (id it) (size it) (color it)
                              (available r - requested r)])
          else Responded 400 (Failure (insufficient it)).
Proof.
  assert (Stock.unique_index [Stock.Doc "A" "M" "red" 5]) as Hu.
  { unfold Stock.unique_index. apply (bool_decide_unpack _). vm_compute. exact I. }
  assert (0 < quantity (Item "A" "M" "red" 3)) as Hpos by (simpl; lia).
  split; [reflexivity|]. split; [exact Hu|]. split; [exact Hpos|].
  exact (query_foretells_reservation ("mongoose" :: module_scope) _ _
           eq_refl Hu Hpos).
Defined.

End RoutesMore.

(** ** Further properties of the legacy catalog stock update *)

Section LegacyMore.
Import Legacy.

Variable StringToNumber : string → num.
Variable ObjectToNumber : value → Js.error + num.
Variable toUpperCase : string → string.

Local Abbreviation ToNumber := (Legacy.ToNumber StringToNumber ObjectToNumber).
Local Abbreviation decrement_entry := (Legacy.decrement_entry StringToNumber ObjectToNumber).
Local Abbreviation decrement_number := (Legacy.decrement_number StringToNumber ObjectToNumber).
Local Abbreviation run_switch := (Legacy.run_switch StringToNumber ObjectToNumber toUpperCase).
Local Abbreviation update_stock := (Legacy.update_stock StringToNumber ObjectToNumber toUpperCase).
Local Abbreviation store_after := (Legacy.store_after StringToNumber ObjectToNumber toUpperCase).
Local Abbreviation store_after_all :=
  (Legacy.store_after_all StringToNumber ObjectToNumber toUpperCase).

Lemma own_put_eq (k : string) (v : value) (fs : list (string * value)) :
  own k (put k v fs) = v.
Proof.
  induction fs as [|[k' v'] fs IH]; simpl.
  - by rewrite String.eqb_refl.
  - destruct (String.eqb k' k) eqn:Hk; simpl.
    + by rewrite String.eqb_refl.
    + by rewrite Hk.
Qed.

Lemma own_put_ne (k k' : string) (v : value) (fs : list (string * value)) :
  k ≠ k' → own k' (put k v fs) = own k' fs.
Proof.
  intros Hne. induction fs as [|[k0 v0] fs IH]; simpl.
  - by apply String.eqb_neq in Hne as ->.
  - destruct (String.eqb k0 k) eqn:Hk; simpl.
    + apply String.eqb_eq in Hk as ->. by apply String.eqb_neq in Hne as ->.
    + by rewrite IH.
Qed.

Lemma Forall_put (P : string * value → Prop) (k : string) (v : value)
    (fs : list (string * value)) :
  Forall P fs → P (k, v) → Forall P (put k v fs).
Proof.
  intros Hfs Hv. induction Hfs as [|[k' v'] fs Hx Hfs IH]; simpl.
  - by apply Forall_singleton.
  - destruct (String.eqb k' k); by constructor.
Qed.

Lemma own_held (k : string) (fs : list (string * value)) :
  Forall (λ kv, held kv.2) fs → truthy (own k fs) = true → held (own k fs).
Proof.
  induction 1 as [|[k' v'] fs Hx Hfs IH]; simpl; [done|].
  destruct (String.eqb k' k); [by intros _|done].
Qed.

(** *** The two decrements *)

Lemma minus_number_eq (a : num) (q : value) :
  minus StringToNumber ObjectToNumber (VNum a) q
  = match ToNumber q with
    | inl e => inl e
    | inr qn => inr (num_sub a qn)
    end.
Proof. reflexivity. Qed.

(** On a number [target.quantity] is [undefined] and the assignment to it is
    ignored: the target is put back as it was. *)
Lemma decrement_entry_number (n : num) (q : value) (rebuild : value → value) :
  decrement_entry (VNum n) q rebuild
  = match ToNumber q with
    | inl e => inl e
    | inr _ => inr (Break true (rebuild (VNum n)) false)
    end.
Proof.
  unfold Legacy.decrement_entry, minus. cbn [get Legacy.ToNumber].
  destruct (ToNumber q); reflexivity.
Qed.

Lemma decrement_entry_object (efs : list (string * value)) (n qn : num) (q : value)
    (rebuild : value → value) :
  own "quantity" efs = VNum n →
  ToNumber q = inr qn →
  decrement_entry (VObj efs) q rebuild
  = inr (if lt0 (num_sub n qn) then no_stock
         else Break true (rebuild (VObj (put "quantity" (VNum (num_sub n qn)) efs)))
                false).
Proof.
  intros Hq Hn. unfold Legacy.decrement_entry, minus, below_zero.
  cbn [get Legacy.set]. rewrite Hq. cbn [Legacy.ToNumber]. rewrite Hn.
  rewrite own_put_eq. cbn [Legacy.ToNumber]. by destruct (lt0 _).
Qed.

Lemma decrement_number_converted (n qn : num) (q : value) :
  ToNumber q = inr qn →
  decrement_number n q
  = inr (if lt0 (num_sub n qn) then no_stock
         else Break true (VNum (num_sub n qn)) true).
Proof.
  intros Hn. unfold Legacy.decrement_number, minus. cbn [Legacy.ToNumber].
  rewrite Hn. by destruct (lt0 _).
Qed.

(** A matched entry is changed in place: the path is not assigned, and the
    stock at the [break] is the old one with the entry put back. *)
Lemma decrement_entry_in_place (target : value) (q : value) (rebuild : value → value) :
  match decrement_entry target q rebuild with
  | inr (Break _ st' assigned) => assigned = false ∧ ∃ x, st' = rebuild x
  | _ => True
  end.
Proof.
  unfold Legacy.decrement_entry.
  destruct (get target "quantity"); [done|].
  destruct (minus _ _ _ _); [done|].
  destruct (get _ "quantity"); [done|].
  destruct (below_zero _ _ _) as [e|[|]]; try done.
  split; [done|by eexists].
Qed.

(** Taking from an entry whose quantity is not below zero: an exception, a
    refusal, or an entry whose quantity is not below zero again. *)
Lemma decrement_entry_held (target : value) (q : value) (rebuild : value → value) :
  held target →
  match decrement_entry target q rebuild with
  | inr (Break _ st' _) => ∃ target', held target' ∧ st' = rebuild target'
  | _ => True
  end.
Proof.
  intros Hheld. destruct target as [| | |n| | |efs]; try done.
  - rewrite decrement_entry_number. destruct (ToNumber q); [done|].
    by exists (VNum n).
  - simpl in Hheld.
    destruct (own "quantity" efs) as [| | |n| | |] eqn:Hq; try done.
    destruct (ToNumber q) as [e|qn] eqn:Hqn.
    + unfold Legacy.decrement_entry, minus. cbn [get]. rewrite Hq.
      cbn [Legacy.ToNumber]. by rewrite Hqn.
    + rewrite (decrement_entry_object _ _ _ _ _ Hq Hqn).
      destruct (lt0 (num_sub n qn)) eqn:Hlt; [done|].
      eexists. split; [|done]. simpl. by rewrite own_put_eq.
Qed.

Lemma decrement_number_sound (n : num) (q : value) :
  match decrement_number n q with
  | inr (Break _ st' _) => sound_stock st'
  | _ => True
  end.
Proof.
  unfold Legacy.decrement_number. destruct (minus _ _ _ _) as [e|r]; [done|].
  by destruct (lt0 r) eqn:Hlt.
Qed.

Lemma keyed_entry_sound (st : value) (k : string) (q : value) :
  sound_stock st →
  match get st k with
  | inl _ => True
  | inr entry =>
      truthy entry = true →
      match decrement_entry entry q (Legacy.set st k) with
      | inr (Break _ st' _) => sound_stock st'
      | _ => True
      end
  end.
Proof.
  intros Hs. destruct st as [| | |n| |l named|fs]; try done.
  - cbn [get]. intros _.
    pose proof (decrement_entry_in_place (own k named) q
                  (Legacy.set (VArr l named) k)) as Hshape.
    destruct (decrement_entry _ _ _) as [e|[st text|u st' a]]; try done.
    by destruct Hshape as (_ & x & ->).
  - cbn [get]. intros Ht.
    pose proof (decrement_entry_held (own k fs) q (Legacy.set (VObj fs) k)
                  (own_held _ _ Hs Ht)) as Hheld.
    destruct (decrement_entry _ _ _) as [e|[st text|u st' a]]; try done.
    destruct Hheld as (t' & Ht' & ->). simpl. by apply Forall_put.
Qed.

Lemma case_gloves_sound (st : value) (b : body) :
  sound_stock st →
  match case_gloves StringToNumber ObjectToNumber toUpperCase st b with
  | inr (Break true st' _) => sound_stock st'
  | _ => True
  end.
Proof.
  intros Hs. unfold case_gloves.
  destruct st as [| | |n| |l named|fs]; try done.
  - pose proof (decrement_number_sound n (quantity b)) as Hn.
    by destruct (decrement_number _ _) as [e|[st text|[|] st' a]].
  - destruct (findIndex toUpperCase _ l 0) as [e|[i|]]; try done.
    destruct (l !! i) as [item|] eqn:Hi; [|done].
    assert (held item) as Hitem.
    { simpl in Hs. rewrite Forall_forall in Hs. apply Hs.
      by eapply list_elem_of_lookup_2. }
    pose proof (decrement_entry_held item (quantity b)
                  (λ item', VArr (<[i := item']> l) named) Hitem) as Hheld.
    destruct (decrement_entry _ _ _) as [e|[st text|[|] st' a]]; try done.
    destruct Hheld as (t' & Ht' & ->). simpl. by apply Forall_insert.
  - cbn [get]. simpl in Hs.
    destruct (truthy (own _ fs)) eqn:Ht; [|done].
    pose proof (own_held _ _ Hs Ht) as Hentry.
    destruct (own _ fs) as [| | |n| | |efs] eqn:Hown; try done.
    + cbn [is_object]. rewrite minus_number_eq.
      destruct (ToNumber (quantity b)) as [e|qn]; [done|].
      destruct (lt0 (num_sub n qn)) eqn:Hlt; [done|].
      simpl. by apply Forall_put.
    + cbn [is_object get]. simpl in Hentry.
      destruct (own "quantity" efs) as [| | |n| | |]; try done.
      rewrite minus_number_eq.
      destruct (ToNumber (quantity b)) as [e|qn]; [done|].
      destruct (lt0 (num_sub n qn)) eqn:Hlt; [done|].
      simpl. apply Forall_put; [done|]. simpl. by rewrite own_put_eq.
Qed.

Lemma run_switch_sound (p : product) (b : body) :
  sound_stock (stock p) →
  match run_switch p b with
  | inr (Break true st' _) => sound_stock st'
  | _ => True
  end.
Proof.
  intros Hs. unfold Legacy.run_switch. destruct p as [ty st]. simpl in Hs.
  assert (∀ k, match get st k with
               | inl e => True
               | inr entry =>
                   if truthy entry
                   then match decrement_entry entry (quantity b) (Legacy.set st k) with
                        | inr (Break true st' _) => sound_stock st'
                        | _ => True
                        end
                   else True
               end) as Hkeyed.
  { intros k. pose proof (keyed_entry_sound st k (quantity b) Hs) as Hk.
    destruct (get st k) as [e|entry]; [done|].
    destruct (truthy entry); [|done]. specialize (Hk eq_refl).
    by destruct (decrement_entry _ _ _) as [e|[st0 text|[|] st' a]]. }
  destruct ty; cbn [productType stock].
  - unfold case_clothing.
    destruct (size b) as [sz|], (color b) as [co|]; try done.
    destruct (_ || _); [done|].
    specialize (Hkeyed (sz +:+ "-" +:+ co)).
    destruct (get st _) as [e|entry]; [done|]. by destruct (truthy entry).
  - unfold case_accessory.
    destruct st as [| | |n| |l named|fs]; try done.
    + pose proof (decrement_number_sound n (quantity b)) as Hn.
      by destruct (decrement_number _ _) as [e|[st text|[|] st' a]].
    + specialize (Hkeyed "default"). cbn [get] in *. by destruct (truthy _).
    + specialize (Hkeyed "default"). cbn [get] in *. by destruct (truthy _).
  - by apply case_gloves_sound.
  - by apply case_gloves_sound.
Qed.

(** X9. The legacy stock update drives no quantity below zero, whatever the
    request carries as its quantity (nothing, a fraction, a negative number,
    a string): for a product whose stock, in any of the three encodings,
    holds no quantity below zero, the document handed to [product.save()],
    if any, holds none either, and neither does the document the collection
    holds afterwards; both keep the product type. A quantity that is [NaN]
    is not below zero, and a request without a quantity does leave [NaN]. *)
Theorem update_stock_keeps_sound (p : product) (b : body) :
  sound_stock (stock p) →
  (∀ p', saved (update_stock (Some p) (Some b)) = Some p' →
         sound_stock (stock p') ∧ productType p' = productType p)
  ∧ ∃ p'', store_after (Some p) (Some b) = Some p''
           ∧ sound_stock (stock p'') ∧ productType p'' = productType p.
Proof.
  intros Hs. pose proof (run_switch_sound p b Hs) as Hrun.
  unfold Legacy.update_stock, Legacy.store_after.
  destruct (run_switch p b) as [e|[st text|[|] st' [|]]]; simpl; split;
    try done; try (intros p' [= <-]; done); by eexists.
Qed.

(** *** What is written *)

(** The path [stock] is assigned only where the stock is a number. *)
Lemma run_switch_assigned (p : product) (b : body) (updated : bool) (st' : value) :
  run_switch p b = inr (Break updated st' true) → is_number (stock p) = true.
Proof.
  unfold Legacy.run_switch. destruct p as [ty st]. cbn [productType stock].
  assert (∀ target rebuild,
            decrement_entry target (quantity b) rebuild ≠ inr (Break updated st' true))
    as Hentry.
  { intros target rebuild Heq.
    pose proof (decrement_entry_in_place target (quantity b) rebuild) as Hshape.
    rewrite Heq in Hshape. by destruct Hshape. }
  destruct ty.
  - unfold case_clothing.
    destruct (size b) as [sz|], (color b) as [co|]; try done.
    destruct (_ || _); [done|].
    destruct (get st _) as [e|entry]; [done|].
    destruct (truthy entry); [|done]. intros Heq. by apply Hentry in Heq.
  - unfold case_accessory. destruct st; try done;
      (destruct (get _ "default") as [e|entry]; [done|]);
      (destruct (truthy entry); [|done]); intros Heq; by apply Hentry in Heq.
  - unfold case_gloves. destruct st as [| | |n| |l named|fs]; try done.
    + destruct (findIndex toUpperCase _ l 0) as [e|[i|]]; try done.
      destruct (l !! i); [|done]. intros Heq. by apply Hentry in Heq.
    + destruct (get _ _) as [e|entry]; [done|].
      destruct (truthy entry); [|done].
      destruct (if is_object entry then _ else _) as [e|cur]; [done|].
      destruct (minus _ _ _ _); [done|]. by destruct (lt0 _).
  - unfold case_gloves. destruct st as [| | |n| |l named|fs]; try done.
    + destruct (findIndex toUpperCase _ l 0) as [e|[i|]]; try done.
      destruct (l !! i); [|done]. intros Heq. by apply Hentry in Heq.
    + destruct (get _ _) as [e|entry]; [done|].
      destruct (truthy entry); [|done].
      destruct (if is_object entry then _ else _) as [e|cur]; [done|].
      destruct (minus _ _ _ _); [done|]. by destruct (lt0 _).
Qed.

Lemma store_after_in_place (p : product) (req_body : option body) :
  is_number (stock p) = false → store_after (Some p) req_body = Some p.
Proof.
  intros Hn. unfold Legacy.store_after. destruct req_body as [b|]; [|done].
  destruct (run_switch p b) as [e|[st text|[|] st' [|]]] eqn:Hrun; try done.
  apply run_switch_assigned in Hrun. congruence.
Qed.

(** X24. Sales of a product whose stock is not a number are never written:
    whatever the requests and however they are answered, the collection
    holds the product as before, so the stock route lists what it listed
    before the sales. Only a stock that is a number is ever written by this
    handler. *)
Theorem sales_in_place_not_stored (p : product) (reqs : list (option body)) :
  is_number (stock p) = false →
  store_after_all (Some p) reqs = Some p
  ∧ get_stock toUpperCase (store_after_all (Some p) reqs)
    = get_stock toUpperCase (Some p).
Proof.
  intros Hn.
  assert (store_after_all (Some p) reqs = Some p) as ->; [|done].
  unfold Legacy.store_after_all.
  induction reqs as [|r reqs IH]; [done|]. cbn [fold_left].
  by rewrite store_after_in_place.
Qed.

(** *** Reading the stock after a sale *)

Lemma list_accessory_holds (st : value) (n : num) :
  accessory_holds st n →
  list_accessory st = Some (if is_number st then VNum n else or_zero (VNum n)).
Proof.
  intros [->|(fs & efs & -> & Hd & Hq)]; [done|].
  unfold list_accessory. cbn [get]. rewrite Hd. cbn [get]. by rewrite Hq.
Qed.

(** X10. An accessory whose stock holds the number [n], as a number or as
    the [quantity] of its [default] entry, and a request whose quantity
    converts to [q]. The stock route lists [n] ([n || 0] for the entry). The
    request is refused with [No hay suficiente stock] when [n - q < 0] and
    then nothing is written; otherwise it is answered as a success and
    [product.save()] is called on a stock that holds [n - q]. Where the stock
    is a number, that stock is written and the stock route lists [n - q]
    afterwards; where it is an object, nothing is written and the stock
    route lists what it listed before the sale. *)
Theorem accessory_sale_then_listing (st : value) (n q : num) (b : body) :
  accessory_holds st n →
  ToNumber (quantity b) = inr q →
  get_stock toUpperCase (Some (Product accessory st))
  = Listed (BySize {["default" := if is_number st then VNum n else or_zero (VNum n)]})
  ∧ if lt0 (num_sub n q)
    then
      update_stock (Some (Product accessory st)) (Some b)
      = Outcome 400 (Send "No hay suficiente stock") None
      ∧ store_after (Some (Product accessory st)) (Some b) = Some (Product accessory st)
    else ∃ st',
      update_stock (Some (Product accessory st)) (Some b)
      = Outcome 200 JsonSuccess (Some (Product accessory st'))
      ∧ accessory_holds st' (num_sub n q)
      ∧ store_after (Some (Product accessory st)) (Some b)
        = Some (Product accessory (if is_number st then st' else st))
      ∧ get_stock toUpperCase (store_after (Some (Product accessory st)) (Some b))
        = Listed (BySize {["default" := if is_number st then VNum (num_sub n q)
                                        else or_zero (VNum n)]}).
Proof.
  intros Hst Hq.
  assert (∀ st0 n0, accessory_holds st0 n0 →
            get_stock toUpperCase (Some (Product accessory st0))
            = Listed (BySize {["default" := if is_number st0 then VNum n0
                                            else or_zero (VNum n0)]})) as Hlist.
  { intros st0 n0 H0. unfold get_stock, format_stock. simpl.
    by rewrite (list_accessory_holds _ _ H0). }
  split; [by apply Hlist|].
  unfold Legacy.update_stock, Legacy.store_after, Legacy.run_switch, case_accessory.
  cbn [productType stock].
  pose proof Hst as [->|(fs & efs & -> & Hd & Hqe)].
  - rewrite (decrement_number_converted _ _ _ Hq).
    destruct (lt0 (num_sub n q)) eqn:Hlt; [done|].
    exists (VNum (num_sub n q)). cbn [is_number].
    split; [done|]. split; [by left|]. split; [done|].
    apply (Hlist (VNum (num_sub n q))). by left.
  - cbn [get]. rewrite Hd. cbn [truthy].
    rewrite (decrement_entry_object _ _ _ _ _ Hqe Hq).
    destruct (lt0 (num_sub n q)) eqn:Hlt; [done|].
    eexists. cbn [is_number]. split; [done|]. split; [|split; [done|]].
    + right. eexists _, _. split; [done|]. by rewrite !own_put_eq.
    + by apply (Hlist (VObj fs)).
Qed.

(** *** Size objects *)






(** *** Size arrays *)








(** *** Clothing *)

Lemma put_own (k : string) (fs : list (string * value)) :
  own k fs ≠ VUndefined → put k (own k fs) fs = fs.
Proof.
  induction fs as [|[k' v'] fs IH]; simpl; [done|].
  destruct (String.eqb k' k) eqn:Hk.
  - apply String.eqb_eq in Hk as ->. by intros _.
  - intros Hne. by rewrite IH.
Qed.

(** X21. Clothing kept as an object from [size-color] to entries, the entry
    of the requested size and color being an object that holds the number
    [n], and a request whose quantity converts to [q]. When [n - q < 0] the
    request is refused with [No hay suficiente stock]. Otherwise it is
    answered as a success, and [product.save()] is called on a stock whose
    entry holds [n - q], its other properties and every other entry being
    what they were. In both cases nothing is written, the entry being
    changed inside the value of the path: the collection holds the product
    as before, and the stock route returns the stock with the entry still
    holding [n]. *)
Theorem clothing_sale (fs efs : list (string * value)) (s c : string) (v : value)
    (n q : num) :
  s ≠ "" → c ≠ "" →
  own (s +:+ "-" +:+ c) fs = VObj efs →
  own "quantity" efs = VNum n →
  ToNumber v = inr q →
  (if lt0 (num_sub n q)
   then update_stock (Some (Product clothing (VObj fs))) (Some (Body (Some s) (Some c) v))
        = Outcome 400 (Send "No hay suficiente stock") None
   else ∃ fs' efs',
     update_stock (Some (Product clothing (VObj fs))) (Some (Body (Some s) (Some c) v))
     = Outcome 200 JsonSuccess (Some (Product clothing (VObj fs')))
     ∧ own (s +:+ "-" +:+ c) fs' = VObj efs'
     ∧ own "quantity" efs' = VNum (num_sub n q)
     ∧ (∀ f, f ≠ "quantity" → own f efs' = own f efs)
     ∧ (∀ k, k ≠ s +:+ "-" +:+ c → own k fs' = own k fs))
  ∧ store_after (Some (Product clothing (VObj fs))) (Some (Body (Some s) (Some c) v))
    = Some (Product clothing (VObj fs))
  ∧ get_stock toUpperCase
      (store_after (Some (Product clothing (VObj fs))) (Some (Body (Some s) (Some c) v)))
    = Listed (Stored (VObj fs)).
Proof.
  intros Hs Hc Hentry Hqty Hq.
  assert (store_after (Some (Product clothing (VObj fs)))
            (Some (Body (Some s) (Some c) v))
          = Some (Product clothing (VObj fs))) as Hstore
    by (by apply store_after_in_place).
  split_and!; [|done|by rewrite Hstore].
  unfold Legacy.update_stock, Legacy.run_switch, case_clothing.
  cbn [productType stock size color quantity].
  apply String.eqb_neq in Hs as ->. apply String.eqb_neq in Hc as ->.
  cbn [orb get]. rewrite Hentry. cbn [truthy].
  rewrite (decrement_entry_object _ _ _ _ _ Hqty Hq).
  destruct (lt0 (num_sub n q)); [done|].
  eexists _, _. split_and!; [done|..].
  - by rewrite own_put_eq.
  - by rewrite own_put_eq.
  - intros f Hf. by rewrite own_put_ne.
  - intros k Hk. by rewrite own_put_ne.
Qed.

(** X22. A clothing entry that is a number instead of an object is never
    sold from: whatever quantity is requested, also more than the number,
    the request is answered as a success and the document that is saved is
    the product as it was. *)
Theorem clothing_numeric_entry_kept (fs : list (string * value)) (s c : string)
    (v : value) (n q : num) :
  s ≠ "" → c ≠ "" → truthy (VNum n) = true →
  own (s +:+ "-" +:+ c) fs = VNum n →
  ToNumber v = inr q →
  update_stock (Some (Product clothing (VObj fs))) (Some (Body (Some s) (Some c) v))
  = Outcome 200 JsonSuccess (Some (Product clothing (VObj fs))).
Proof.
  intros Hs Hc Hn Hentry Hq.
  unfold Legacy.update_stock, Legacy.run_switch, case_clothing.
  cbn [productType stock size color quantity].
  apply String.eqb_neq in Hs as ->. apply String.eqb_neq in Hc as ->.
  cbn [orb get]. rewrite Hentry, Hn.
  rewrite decrement_entry_number, Hq. cbn [Legacy.set].
  rewrite <- Hentry, put_own; [done|]. by rewrite Hentry.
Qed.

End LegacyMore.

(** Three sales of two shirts from an entry that holds five: each is answered
    as a success, [product.save()] being called on an entry that holds three,
    and the collection holds five throughout. *)
Example clothing_oversold :
  let shirt := Legacy.Product Legacy.clothing
    (Legacy.VObj [("M-red", Legacy.VObj [("quantity", Legacy.VNum 5)])]) in
  let order := Some (Legacy.Body (Some "M") (Some "red") (Legacy.VNum 2)) in
  let update := Legacy.update_stock (λ _, nan) (λ _, inr nan) Legacy.upper in
  let after := Legacy.store_after_all (λ _, nan) (λ _, inr nan) Legacy.upper (Some shirt) in
  Legacy.status (update (after []) order) = 200
  ∧ Legacy.status (update (after [order]) order) = 200
  ∧ Legacy.status (update (after [order; order]) order) = 200
  ∧ after [order; order; order] = Some shirt.
Proof. split_and!; reflexivity. Qed.

Lemma update_stock_keeps_sound_witness :
  let cap := Legacy.Product Legacy.accessory (Legacy.VNum 5) in
  let order := Legacy.Body None None Legacy.VUndefined in
  Legacy.sound_stock (Legacy.stock cap)
  ∧ (∀ p', Legacy.saved (Legacy.update_stock (λ _, nan) (λ _, inr nan) Legacy.upper
                           (Some cap) (Some order)) = Some p' →
           Legacy.sound_stock (Legacy.stock p')
           ∧ Legacy.productType p' = Legacy.productType cap)
  ∧ ∃ p'', Legacy.store_after (λ _, nan) (λ _, inr nan) Legacy.upper (Some cap) (Some order)
           = Some p''
           ∧ Legacy.sound_stock (Legacy.stock p'')
           ∧ Legacy.productType p'' = Legacy.productType cap.
Proof.
  assert (Legacy.sound_stock
            (Legacy.stock (Legacy.Product Legacy.accessory (Legacy.VNum 5)))) as Hs
    by reflexivity.
  split; [exact Hs|].
  exact (update_stock_keeps_sound (λ _, nan) (λ _, inr nan) Legacy.upper _
           (Legacy.Body None None Legacy.VUndefined) Hs).
Defined.

Lemma sales_in_place_not_stored_witness :
  let shirt := Legacy.Product Legacy.clothing
    (Legacy.VObj [("M-red", Legacy.VObj [("quantity", Legacy.VNum 5)])]) in
  let order := Some (Legacy.Body (Some "M") (Some "red") (Legacy.VNum 2)) in
  Legacy.is_number (Legacy.stock shirt) = false
  ∧ Legacy.store_after_all (λ _, nan) (λ _, inr nan) Legacy.upper (Some shirt)
      [order; order; order] = Some shirt
  ∧ Legacy.get_stock Legacy.upper
      (Legacy.store_after_all (λ _, nan) (λ _, inr nan) Legacy.upper (Some shirt)
         [order; order; order])
    = Legacy.get_stock Legacy.upper (Some shirt).
Proof.
  assert (Legacy.is_number
            (Legacy.stock
               (Legacy.Product Legacy.clothing
                  (Legacy.VObj [("M-red", Legacy.VObj [("quantity", Legacy.VNum 5)])])))
          = false) as Hn by reflexivity.
  split; [exact Hn|].
  exact (sales_in_place_not_stored (λ _, nan) (λ _, inr nan) Legacy.upper _
           [Some (Legacy.Body (Some "M") (Some "red") (Legacy.VNum 2));
            Some (Legacy.Body (Some "M") (Some "red") (Legacy.VNum 2));
            Some (Legacy.Body (Some "M") (Some "red") (Legacy.VNum 2))] Hn).
Defined.

(** A stock that is the number 5, and a sale of 2: 3 is written and
    listed. *)
Lemma accessory_sale_then_listing_witness :
  let cap := Legacy.Product Legacy.accessory (Legacy.VNum 5) in
  let order := Legacy.Body None None (Legacy.VNum 2) in
  Legacy.accessory_holds (Legacy.VNum 5) 5
  ∧ Legacy.ToNumber (λ _, nan) (λ _, inr nan) (Legacy.quantity order) = inr 2%float
  ∧ Legacy.get_stock Legacy.upper (Some cap)
    = Legacy.Listed (Legacy.BySize {["default" := Legacy.VNum 5]})
  ∧ Legacy.get_stock Legacy.upper
      (Legacy.store_after (λ _, nan) (λ _, inr nan) Legacy.upper (Some cap) (Some order))
    = Legacy.Listed (Legacy.BySize {["default" := Legacy.VNum 3]}).
Proof.
  assert (Legacy.accessory_holds (Legacy.VNum 5) 5) as Hst by (by left).
  assert (Legacy.ToNumber (λ _, nan) (λ _, inr nan)
            (Legacy.quantity (Legacy.Body None None (Legacy.VNum 2))) = inr 2%float)
    as Hq by reflexivity.
  split; [exact Hst|]. split; [exact Hq|].
  destruct (accessory_sale_then_listing (λ _, nan) (λ _, inr nan) Legacy.upper
              _ 5 2 (Legacy.Body None None (Legacy.VNum 2)) Hst Hq) as [Hbefore Hsale].
  split; [exact Hbefore|].
  change (Legacy.lt0 (Legacy.num_sub 5 2)) with false in Hsale.
  destruct Hsale as (st' & _ & _ & _ & Hafter). exact Hafter.
Defined.



Lemma clothing_sale_witness :
  let fs := [("M-red", Legacy.VObj [("quantity", Legacy.VNum 5)])] in
  let shirt := Legacy.Product Legacy.clothing (Legacy.VObj fs) in
  let order := Legacy.Body (Some "M") (Some "red") (Legacy.VNum 2) in
  "M" ≠ "" ∧ "red" ≠ ""
  ∧ Legacy.own "M-red" fs = Legacy.VObj [("quantity", Legacy.VNum 5)]
  ∧ Legacy.ToNumber (λ _, nan) (λ _, inr nan) (Legacy.VNum 2) = inr 2%float
  ∧ Legacy.update_stock (λ _, nan) (λ _, inr nan) Legacy.upper (Some shirt) (Some order)
    = Legacy.Outcome 200 Legacy.JsonSuccess
        (Some (Legacy.Product Legacy.clothing
                 (Legacy.VObj [("M-red", Legacy.VObj [("quantity", Legacy.VNum 3)])])))
  ∧ Legacy.store_after (λ _, nan) (λ _, inr nan) Legacy.upper (Some shirt) (Some order)
    = Some shirt
  ∧ Legacy.get_stock Legacy.upper
      (Legacy.store_after (λ _, nan) (λ _, inr nan) Legacy.upper (Some shirt) (Some order))
    = Legacy.Listed (Legacy.Stored (Legacy.VObj fs)).
Proof.
  assert ("M" ≠ "") as Hs by discriminate.
  assert ("red" ≠ "") as Hc by discriminate.
  split; [exact Hs|]. split; [exact Hc|]. split; [reflexivity|]. split; [reflexivity|].
  split; [reflexivity|].
  exact (proj2 (clothing_sale (λ _, nan) (λ _, inr nan) Legacy.upper
                  [("M-red", Legacy.VObj [("quantity", Legacy.VNum 5)])]
                  [("quantity", Legacy.VNum 5)] "M" "red" (Legacy.VNum 2) 5 2
                  Hs Hc eq_refl eq_refl eq_refl)).
Defined.

Lemma clothing_numeric_entry_kept_witness :
  let fs := [("M-red", Legacy.VNum 5)] in
  "M" ≠ "" ∧ "red" ≠ "" ∧ Legacy.truthy (Legacy.VNum 5) = true
  ∧ Legacy.own "M-red" fs = Legacy.VNum 5
  ∧ Legacy.ToNumber (λ _, nan) (λ _, inr nan) (Legacy.VNum 7) = inr 7%float
  ∧ Legacy.update_stock (λ _, nan) (λ _, inr nan) Legacy.upper
      (Some (Legacy.Product Legacy.clothing (Legacy.VObj fs)))
      (Some (Legacy.Body (Some "M") (Some "red") (Legacy.VNum 7)))
    = Legacy.Outcome 200 Legacy.JsonSuccess
        (Some (Legacy.Product Legacy.clothing (Legacy.VObj fs))).
Proof.
  assert ("M" ≠ "") as Hs by discriminate.
  assert ("red" ≠ "") as Hc by discriminate.
  assert (Legacy.truthy (Legacy.VNum 5) = true) as Hn by reflexivity.
  split; [exact Hs|]. split; [exact Hc|]. split; [exact Hn|]. split; [reflexivity|].
  split; [reflexivity|].
  exact (clothing_numeric_entry_kept (λ _, nan) (λ _, inr nan) Legacy.upper
           [("M-red", Legacy.VNum 5)] "M" "red" (Legacy.VNum 7) 5 7
           Hs Hc Hn eq_refl eq_refl).
Defined.

(** ** The [authenticate] middleware *)

Section AuthFacts.
Import Auth.

Variable verify : string → option (option string).

Lemma split_space_no_space (s : string) :
  no_space s = true → split_space s = [s].
Proof.
  induction s as [|a s IH]; simpl; [done|].
  rewrite andb_true_iff, negb_true_iff. intros [-> Hs]. by rewrite IH.
Qed.

Lemma split_space_app (w r : string) :
  no_space w = true → split_space (w +:+ " " +:+ r) = w :: split_space r.
Proof.
  induction w as [|a w IH]; simpl; [done|].
  rewrite andb_true_iff, negb_true_iff. intros [-> Hw]. by rewrite IH.
Qed.

(** X12. The middleware looks at the second word of the Authorization header
    only: whatever the first word (no scheme is required) and whatever
    follows the second, a header whose second word [t] is not empty is
    accepted exactly when [jwt.verify] accepts [t], with the [userId] of its
    payload, and is answered [Token inválido o expirado] otherwise. *)
Theorem authenticate_second_word (w t r : string) :
  no_space w = true → no_space t = true → t ≠ "" →
  authenticate verify (Some (w +:+ " " +:+ t))
  = match verify t with
    | Some userId => Next userId
    | None => Reject 401 "Token inválido o expirado"
    end
  ∧ authenticate verify (Some (w +:+ " " +:+ t +:+ " " +:+ r))
    = authenticate verify (Some (w +:+ " " +:+ t)).
Proof.
  intros Hw Ht Hne.
  assert (bearer (Some (w +:+ " " +:+ t)) = Some t) as H1.
  { unfold bearer. by rewrite split_space_app, split_space_no_space. }
  assert (bearer (Some (w +:+ " " +:+ t +:+ " " +:+ r)) = Some t) as H2.
  { unfold bearer. by rewrite !split_space_app. }
  unfold authenticate. rewrite H1, H2.
  by apply String.eqb_neq in Hne as ->.
Qed.

(** X13. Without a second word there is no verification: a request without
    Authorization header, with a header of one word, with a header that ends
    in its first space, or with two spaces after the first word, is answered
    401 [No autorizado] whatever [jwt.verify] would say of any token. *)
Theorem authenticate_no_token (w r : string) :
  no_space w = true →
  authenticate verify None = Reject 401 "No autorizado"
  ∧ authenticate verify (Some w) = Reject 401 "No autorizado"
  ∧ authenticate verify (Some (w +:+ " ")) = Reject 401 "No autorizado"
  ∧ authenticate verify (Some (w +:+ " " +:+ " " +:+ r)) = Reject 401 "No autorizado".
Proof.
  intros Hw. split_and!.
  - done.
  - unfold authenticate, bearer. by rewrite split_space_no_space.
  - unfold authenticate, bearer.
    replace (w +:+ " ") with (w +:+ " " +:+ "") by done.
    by rewrite split_space_app.
  - unfold authenticate, bearer. by rewrite split_space_app.
Qed.

Variable StringToNumber : string → Legacy.num.
Variable ObjectToNumber : Legacy.value → Js.error + Legacy.num.
Variable toUpperCase : string → string.

(** X14. Behind the middleware the legacy stock update saves nothing for a
    caller it has not verified: when [product.save()] is called, the
    Authorization header had a second word, not empty, that [jwt.verify]
    accepted; in every other case the reply is a 401 of the middleware or a
    reply of the handler without a save. *)
Theorem update_stock_route_saves_verified (authorization : option string)
    (found : option Legacy.product) (req_body : option Legacy.body) :
  match update_stock_route verify StringToNumber ObjectToNumber toUpperCase
          authorization found req_body with
  | inl v => ∃ message, v = Reject 401 message
  | inr o =>
      o = Legacy.update_stock StringToNumber ObjectToNumber toUpperCase found req_body
      ∧ ∃ token userId,
          bearer authorization = Some token ∧ token ≠ ""
          ∧ verify token = Some userId
  end.
Proof.
  unfold update_stock_route, guarded, authenticate.
  destruct (bearer authorization) as [token|]; [|by eexists].
  destruct (String.eqb_spec token ""); [by eexists|].
  destruct (verify token) as [userId|] eqn:Hv; [|by eexists].
  split; [done|]. by exists token, userId.
Qed.

End AuthFacts.

Lemma authenticate_second_word_witness :
  let verify := λ t : string, if String.eqb t "abc" then Some (Some "u1") else None in
  Auth.no_space "Bearer" = true ∧ Auth.no_space "abc" = true ∧ "abc" ≠ ""
  ∧ Auth.authenticate verify (Some "Bearer abc") = Auth.Next (Some "u1").
Proof.
  assert ("abc" ≠ "") as Hne by discriminate.
  split; [reflexivity|]. split; [reflexivity|]. split; [exact Hne|].
  exact (proj1 (authenticate_second_word
                  (λ t : string, if String.eqb t "abc" then Some (Some "u1") else None)
                  "Bearer" "abc" "" eq_refl eq_refl Hne)).
Defined.

Lemma authenticate_no_token_witness :
  Auth.no_space "Bearer" = true
  ∧ Auth.authenticate (λ _, Some (Some "u1")) (Some "Bearer  abc")
    = Auth.Reject 401 "No autorizado".
Proof.
  split; [reflexivity|].
  exact (proj2 (proj2 (proj2 (authenticate_no_token (λ _, Some (Some "u1"))
                                "Bearer" "abc" eq_refl)))).
Defined.

(** ** Registration and login *)

Section UsersFacts.
Import Users.

Variable hash : string → string → string.
Variable compare : string → string → bool.
Variable sign : Z → string → option string.

Lemma users_findOne_None (e : string) (us : list user) :
  findOne e us = None ↔ e ∉ email <$> us.
Proof.
  unfold findOne. destruct (list_find _ us) as [[i u]|] eqn:Hf; simpl.
  - apply list_find_Some in Hf as (Hi & He & _). split; [done|].
    intros Hnotin. exfalso. apply Hnotin. apply list_elem_of_fmap.
    exists u. split; [done|]. by eapply list_elem_of_lookup_2.
  - apply list_find_None in Hf. rewrite Forall_forall in Hf. split; [|done].
    intros _ (u & -> & Hu)%list_elem_of_fmap. by apply (Hf u Hu).
Qed.

Lemma users_findOne_new (u : user) (us : list user) :
  findOne (email u) us = None → findOne (email u) (us ++ [u]) = Some u.
Proof.
  unfold findOne. destruct (list_find _ us) as [[i u']|] eqn:Hf; [done|]. intros _.
  rewrite list_find_app_r by done. simpl. by rewrite decide_True.
Qed.

Lemma users_findOne_other (e : string) (u : user) (us : list user) :
  e ≠ email u → findOne e (us ++ [u]) = findOne e us.
Proof.
  intros Hne. unfold findOne.
  destruct (list_find (λ u, email u = e) us) as [[i u']|] eqn:Hf.
  - by rewrite (list_find_app_l _ _ _ _ _ Hf).
  - rewrite list_find_app_r by done. simpl. by rewrite decide_False.
Qed.

Lemma register_keeps (salt oid e p : string) (us : list user) :
  us `prefix_of` (register hash salt oid e p us).2
  ∧ (NoDup (email <$> us) → NoDup (email <$> (register hash salt oid e p us).2)).
Proof.
  unfold register. destruct (findOne e us) as [u|] eqn:Hf; [done|].
  destruct (_ || _); [done|]. simpl. split; [by apply prefix_app_r|].
  intros Hnd. rewrite fmap_app. apply NoDup_app. split_and!; [done| |].
  - intros x Hx ->%list_elem_of_singleton. by apply users_findOne_None in Hf.
  - apply NoDup_singleton.
Qed.

(** X15. Registrations never touch the users that exist: after any sequence
    of registration requests the users there were are still there, first and
    unchanged, and if no two of them shared an email no two users share one
    afterwards, whatever bcrypt returns. *)
Theorem registrations_keep_users (rs : list registration) (us : list user) :
  us `prefix_of` register_all hash rs us
  ∧ (NoDup (email <$> us) → NoDup (email <$> register_all hash rs us)).
Proof.
  revert us. unfold register_all.
  induction rs as [|r rs IH]; intros us; [done|]. simpl.
  destruct (register_keeps (r_salt r) (r_oid r) (r_email r) (r_password r) us)
    as [Hpre Hnd].
  destruct (IH (register hash (r_salt r) (r_oid r) (r_email r) (r_password r) us).2)
    as [Hpre' Hnd'].
  split; [by etrans|]. auto.
Qed.

(** X16. Registering and then logging in: if the email is not empty and not
    yet registered, bcrypt returns a non-empty hash that it then accepts for
    the same password, and [jwt.sign] returns a token, then the registration
    is answered 201, a login with the same email and password is answered
    with that token and the identifier of the new user, a login with a
    password bcrypt does not accept for the hash is answered
    [Credenciales inválidas], and logins under other emails are answered as
    before the registration. *)
Theorem register_then_login (salt oid e p token : string) (now : Z) (us : list user) :
  findOne e us = None →
  e ≠ "" →
  hash salt p ≠ "" →
  compare p (hash salt p) = true →
  sign now oid = Some token →
  (register hash salt oid e p us).1 = Message 201 "Usuario creado exitosamente"
  ∧ login compare sign now e p (register hash salt oid e p us).2 = Session token oid
  ∧ (∀ p', compare p' (hash salt p) = false →
           login compare sign now e p' (register hash salt oid e p us).2
           = Message 400 "Credenciales inválidas")
  ∧ (∀ e' p', e' ≠ e →
              login compare sign now e' p' (register hash salt oid e p us).2
              = login compare sign now e' p' us).
Proof.
  intros Hnew He Hh Hcmp Hsign. unfold register. rewrite Hnew.
  apply String.eqb_neq in He as ->. apply String.eqb_neq in Hh as ->. simpl.
  pose proof (users_findOne_new (User oid e (hash salt p) None None) us Hnew) as Hfound.
  simpl in Hfound. split_and!.
  - done.
  - unfold login. rewrite Hfound. simpl. by rewrite Hcmp, Hsign.
  - intros p' Hp'. unfold login. rewrite Hfound. simpl. by rewrite Hp'.
  - intros e' p' Hne. unfold login. by rewrite users_findOne_other.
Qed.

(** *** Asking for a password reset *)

Variable sign_reset : Z → string → option string.

Lemma users_findOne_cons (e : string) (u : user) (us : list user) :
  findOne e (u :: us) = if decide (email u = e) then Some u else findOne e us.
Proof.
  unfold findOne. simpl. case_decide; [done|].
  by destruct (list_find _ us) as [[i u']|].
Qed.

Lemma login_insert (now : Z) (e p : string) (us : list user) (i : nat) (u u' : user) :
  us !! i = Some u →
  email u' = email u → password u' = password u → _id u' = _id u →
  login compare sign now e p (<[i := u']> us) = login compare sign now e p us.
Proof.
  intros Hi He Hp Hid. unfold login.
  revert i Hi. induction us as [|x us IH]; intros [|i] Hi; try done.
  - injection Hi as ->. simpl. rewrite !users_findOne_cons, He.
    case_decide; [|done]. by rewrite Hp, Hid.
  - simpl in Hi |- *. rewrite !users_findOne_cons.
    case_decide; [done|]. by apply IH.
Qed.

(** X23. Asking for a password reset: the token and an expiry one hour
    ahead are saved on the user before the mail is sent, so they are stored
    also when sending fails and the reply is 500; the reply is the
    confirmation exactly when the user exists, the token could be signed and
    the mail was sent. No email is changed, and every login is answered as
    before the request. *)
Theorem forgot_password_effect (signed now : Z) (mailed : bool) (e : string) (us : list user) :
  (∀ u token, findOne e us = Some u → sign_reset signed (_id u) = Some token →
     ∃ u', findOne e (forgot_password sign_reset signed now mailed e us).2 = Some u'
           ∧ _id u' = _id u
           ∧ resetPasswordToken u' = Some token
           ∧ resetPasswordExpires u' = Some (now + 3600000))
  ∧ ((forgot_password sign_reset signed now mailed e us).1
     = Message 200
         "Se ha enviado un enlace para resetear tu contraseña al correo registrado."
     ↔ mailed = true
       ∧ ∃ u token, findOne e us = Some u ∧ sign_reset signed (_id u) = Some token)
  ∧ email <$> (forgot_password sign_reset signed now mailed e us).2 = email <$> us
  ∧ (∀ now' e' p',
       login compare sign now' e' p' (forgot_password sign_reset signed now mailed e us).2
       = login compare sign now' e' p' us).
Proof.
  unfold forgot_password, findOne.
  destruct (list_find (λ u, email u = e) us) as [[i u]|] eqn:Hf; simpl.
  2:{ split_and!; try done. split; [done|]. by intros (_ & u & token & ? & _). }
  pose proof Hf as (Hi & He & Hleast)%list_find_Some.
  destruct (sign_reset signed (_id u)) as [token|] eqn:Hs; simpl.
  2:{ split_and!; try done.
      - intros u0 token0 [= <-]. by rewrite Hs.
      - split; [done|]. intros (_ & u0 & token0 & [= <-] & Hs0). congruence. }
  split_and!.
  - intros u0 token0 [= <-] Hs0. rewrite Hs in Hs0. injection Hs0 as <-.
    exists (User (_id u) (email u) (password u) (Some token) (Some (now + 3600000))).
    split; [|done].
    replace (list_find (λ u, email u = e) (<[i := _]> us))
      with (Some (i, User (_id u) (email u) (password u) (Some token)
                       (Some (now + 3600000)))); [done|].
    symmetry. apply list_find_Some. split_and!; [|done|].
    + apply list_lookup_insert_eq. by eapply lookup_lt_Some.
    + intros j y Hj Hlt. rewrite list_lookup_insert_ne in Hj by lia. eauto.
  - destruct mailed; split; try done.
    + intros _. split; [done|]. by exists u, token.
    + by intros [? _].
  - rewrite list_fmap_insert. apply list_insert_id.
    by rewrite list_lookup_fmap, Hi.
  - intros now' e' p'. by apply (login_insert now' e' p' us i u).
Qed.

Variable castable : string → bool.
Variable verify : string → option (option string).

(** X19. From registration to profile: under the conditions of the
    registration and login above, if no user has the new identifier yet, the
    identifier casts to an ObjectId, and [jwt.verify] accepts the token of the
    login (a word without spaces) with that identifier, then a request to
    GET /api/user carrying [Bearer] and the token is answered with the email
    that was registered. *)
Theorem register_login_profile (salt oid e p token : string) (now : Z)
    (us : list user) :
  findOne e us = None →
  e ≠ "" →
  hash salt p ≠ "" →
  compare p (hash salt p) = true →
  sign now oid = Some token →
  (∀ u, u ∈ us → _id u ≠ oid) →
  castable oid = true →
  Auth.no_space token = true →
  token ≠ "" →
  verify token = Some (Some oid) →
  login compare sign now e p (register hash salt oid e p us).2 = Session token oid
  ∧ user_route castable verify (Some ("Bearer " +:+ token))
      (register hash salt oid e p us).2
    = inr (Profile e).
Proof.
  intros Hnew He Hh Hcmp Hsign Hfresh Hcast Hsp Htok Hver.
  assert ((register hash salt oid e p us).2 = us ++ [User oid e (hash salt p) None None]) as Hus.
  { unfold register. rewrite Hnew.
    apply String.eqb_neq in He as ->. by apply String.eqb_neq in Hh as ->. }
  rewrite Hus. split.
  - pose proof (users_findOne_new (User oid e (hash salt p) None None) us Hnew) as Hfound.
    simpl in Hfound. unfold login. rewrite Hfound. simpl.
    by rewrite Hcmp, Hsign.
  - unfold user_route, Auth.guarded, Auth.authenticate, Auth.bearer.
    change ("Bearer " +:+ token) with ("Bearer" +:+ " " +:+ token).
    rewrite split_space_app by done. rewrite split_space_no_space by done. simpl.
    apply String.eqb_neq in Htok as ->. rewrite Hver.
    unfold get_user. rewrite Hcast.
    assert (list_find (λ u, _id u = oid) us = None) as Hnone.
    { apply list_find_None. rewrite Forall_forall. intros u Hu. by apply Hfresh. }
    rewrite list_find_app_r by done. simpl. by rewrite decide_True.
Qed.

End UsersFacts.

Lemma register_login_profile_witness :
  let hash := λ salt p : string, salt +:+ p in
  let compare := λ p h : string, String.eqb ("s" +:+ p) h in
  let sign := λ (now : Z) (uid : string), Some ("t-" +:+ uid) in
  let verify := λ t : string, if String.eqb t "t-u1" then Some (Some "u1") else None in
  Users.findOne "a@b.co" [] = None
  ∧ "a@b.co" ≠ "" ∧ hash "s" "pw" ≠ "" ∧ compare "pw" (hash "s" "pw") = true
  ∧ sign 0 "u1" = Some "t-u1"
  ∧ (∀ u : Users.user, u ∈ [] → Users._id u ≠ "u1")
  ∧ Auth.no_space "t-u1" = true ∧ "t-u1" ≠ ""
  ∧ verify "t-u1" = Some (Some "u1")
  ∧ Users.user_route (λ _, true) verify (Some "Bearer t-u1")
      (Users.register hash "s" "u1" "a@b.co" "pw" []).2
    = inr (Users.Profile "a@b.co").
Proof.
  assert ("a@b.co" ≠ "") as He by discriminate.
  assert ("s" +:+ "pw" ≠ "") as Hh by discriminate.
  assert ("t-u1" ≠ "") as Ht by discriminate.
  assert (∀ u : Users.user, u ∈ [] → Users._id u ≠ "u1") as Hfresh.
  { intros u Hu. by apply elem_of_nil in Hu. }
  split; [reflexivity|]. split; [exact He|]. split; [exact Hh|].
  split; [reflexivity|]. split; [reflexivity|]. split; [exact Hfresh|].
  split; [reflexivity|]. split; [exact Ht|]. split; [reflexivity|].
  exact (proj2 (register_login_profile
                  (λ salt p : string, salt +:+ p)
                  (λ p h : string, String.eqb ("s" +:+ p) h)
                  (λ (now : Z) (uid : string), Some ("t-" +:+ uid))
                  (λ _, true)
                  (λ t : string, if String.eqb t "t-u1" then Some (Some "u1") else None)
                  "s" "u1" "a@b.co" "pw" "t-u1" 0 []
                  eq_refl He Hh eq_refl eq_refl Hfresh eq_refl eq_refl Ht eq_refl)).
Defined.

Lemma register_then_login_witness :
  let hash := λ salt p : string, salt +:+ p in
  let compare := λ p h : string, String.eqb ("s" +:+ p) h in
  let sign := λ (now : Z) (uid : string), Some ("t-" +:+ uid) in
  Users.findOne "a@b.co" [] = None
  ∧ "a@b.co" ≠ ""
  ∧ hash "s" "pw" ≠ ""
  ∧ compare "pw" (hash "s" "pw") = true
  ∧ sign 0 "u1" = Some "t-u1"
  ∧ Users.login compare sign 0 "a@b.co" "pw"
      (Users.register hash "s" "u1" "a@b.co" "pw" []).2
    = Users.Session "t-u1" "u1".
Proof.
  assert ("a@b.co" ≠ "") as He by discriminate.
  assert ("s" +:+ "pw" ≠ "") as Hh by discriminate.
  split; [reflexivity|]. split; [exact He|]. split; [exact Hh|].
  split; [reflexivity|]. split; [reflexivity|].
  exact (proj1 (proj2 (register_then_login
                         (λ salt p : string, salt +:+ p)
                         (λ p h : string, String.eqb ("s" +:+ p) h)
                         (λ (now : Z) (uid : string), Some ("t-" +:+ uid))
                         "s" "u1" "a@b.co" "pw" "t-u1" 0 []
                         eq_refl He Hh eq_refl eq_refl))).
Defined.

(** ** Creating and replacing products *)

Section CatalogFacts.
Import Catalog.

Variable saves_new : fields → bool.
Variable saves_over : fields → fields → bool.
Variable minimize : Legacy.value → Legacy.value.




(** A stock that is an empty object, with a [minimize] that drops it: the
    product is created, and neither the reply nor the stored document has a
    stock. *)
Example post_products_empty_stock :
  post_products (λ _, true) (λ _ _, true)
    (λ v, match v with Legacy.VObj [] => Legacy.VUndefined | _ => v end)
    (Fields "p1" (Some "Guante") (Some 10) (Some "g.png") (Some "guantes")
       (Some "gloves") (Legacy.VObj []))
    []
  = (Json (Fields "p1" (Some "Guante") (Some 10) (Some "g.png") (Some "guantes")
             (Some "gloves") Legacy.VUndefined),
     [Fields "p1" (Some "Guante") (Some 10) (Some "g.png") (Some "guantes")
        (Some "gloves") Legacy.VUndefined]).
Proof. reflexivity. Qed.



End CatalogFacts.
